(** * remix-dynamic-demo: the prefixed [Scripts] and [Links] components

    A shallow embedding of [app/components/Scripts.tsx] and
    [app/components/Links.tsx].  Strings are sequences of UTF-16 code
    units, as in JavaScript; thrown exceptions are an explicit result
    type; React elements are a small inductive type holding exactly the
    attributes the components set. *)

From stdpp Require Import base numbers option list strings gmap pretty.

Open Scope N_scope.

(** ** JavaScript strings and values *)

Module JS.

(** A JavaScript string is a sequence of UTF-16 code units. *)
Abbreviation codeunit := N (only parsing).
Abbreviation jsstring := (list N) (only parsing).

(** An ASCII literal of the source, as code units. *)
Definition js (s : string) : jsstring :=
  map Ascii.N_of_ascii (String.list_ascii_of_string s).

(** [Array.prototype.join] on an array of strings. *)
Fixpoint join (sep : jsstring) (parts : list jsstring) : jsstring :=
  match parts with
  | [] => []
  | [p] => p
  | p :: rest => p ++ sep ++ join sep rest
  end.

(** Numbers: NaN and the integers.  [Num z] stands for the number [z]
    where JavaScript prints an integer with all its digits, that is for
    [z] of magnitude below 10^21 (the abort delay in milliseconds, a
    count, an integer inside loader data).  Fractions, the infinities,
    negative zero and the integers JavaScript prints with an exponent
    ([1e+21]) have no value here. *)
Inductive number :=
  | NaN
  | Num (z : Z).

#[warnings="-register-all"]
Inductive jsval :=
  | VUndefined
  | VNull
  | VBool (b : bool)
  | VNumber (n : number)
  | VString (s : jsstring)
  | VArray (items : list jsval)
  | VObject (props : list (jsstring * jsval)).

(** An object is its list of own properties in insertion order (the order
    of [Object.entries] and of [JSON.stringify] for keys that are not
    array indices). *)
Abbreviation obj := (list (jsstring * jsval)) (only parsing).

#[global] Instance number_eq_dec : EqDecision number.
Proof. solve_decision. Defined.

(** Thrown values. *)
Inductive exn :=
  | Error (message : jsstring)
  | TypeError.

Inductive result (A : Type) :=
  | Ok (a : A)
  | Throw (e : exn).
Arguments Ok {A} a.
Arguments Throw {A} e.

Definition rbind {A B} (r : result A) (k : A → result B) : result B :=
  match r with
  | Ok a => k a
  | Throw e => Throw e
  end.

(** [Array.prototype.map] with a callback that may throw: the first throw
    aborts the traversal. *)
Fixpoint rmap {A B} (f : A → result B) (l : list A) : result (list B) :=
  match l with
  | [] => Ok []
  | x :: l' =>
      rbind (f x) (λ y, rbind (rmap f l') (λ ys, Ok (y :: ys)))
  end.

(** ToBoolean. *)
Definition truthy (v : jsval) : bool :=
  match v with
  | VUndefined | VNull => false
  | VBool b => b
  | VNumber NaN => false
  | VNumber (Num z) => negb (Z.eqb z 0)
  | VString s => match s with [] => false | _ => true end
  | VArray _ | VObject _ => true
  end.

Definition truthy_str (s : option jsstring) : bool :=
  match s with
  | Some (_ :: _) => true
  | _ => false
  end.

(** Number::toString in base 10, on the numbers of [number]: all the
    digits of an integer of magnitude below 10^21. *)
Definition number_to_string (n : number) : jsstring :=
  match n with
  | NaN => js "NaN"
  | Num z => js (pretty z)
  end.

(** ToString, as applied by [+] with a string operand and by template
    literals. *)
Fixpoint to_string (v : jsval) : jsstring :=
  match v with
  | VUndefined => js "undefined"
  | VNull => js "null"
  | VBool true => js "true"
  | VBool false => js "false"
  | VNumber n => number_to_string n
  | VString s => s
  | VArray items =>
      join (js ",")
        ((fix go (l : list jsval) : list jsstring :=
            match l with
            | [] => []
            | VUndefined :: l' => [] :: go l'
            | VNull :: l' => [] :: go l'
            | x :: l' => to_string x :: go l'
            end) items)
  | VObject _ => js "[object Object]"
  end.

(** *** JSON.stringify *)

Definition hexdigit (d : N) : N :=
  if d <? 10 then 48 + d else 87 + d.

Definition unicode_escape (c : N) : jsstring :=
  js "\u" ++ [hexdigit (c / 4096 mod 16); hexdigit (c / 256 mod 16);
              hexdigit (c / 16 mod 16); hexdigit (c mod 16)].

Definition is_lead (c : N) : bool := (0xD800 <=? c) && (c <=? 0xDBFF).
Definition is_trail (c : N) : bool := (0xDC00 <=? c) && (c <=? 0xDFFF).

Definition quote_unit (c : N) : jsstring :=
  if c =? 8 then js "\b"
  else if c =? 9 then js "\t"
  else if c =? 10 then js "\n"
  else if c =? 12 then js "\f"
  else if c =? 13 then js "\r"
  else if c =? 34 then [92; 34]
  else if c =? 92 then [92; 92]
  else if (c <? 32) || is_lead c || is_trail c then unicode_escape c
  else [c].

(** The body of QuoteJSONString: a surrogate pair is copied, every other
    code unit goes through [quote_unit]. *)
Fixpoint quote_units (s : jsstring) : jsstring :=
  match s with
  | [] => []
  | c :: s' =>
      match s' with
      | d :: s'' =>
          if is_lead c && is_trail d then c :: d :: quote_units s''
          else quote_unit c ++ quote_units s'
      | [] => quote_unit c
      end
  end.

Definition quote (s : jsstring) : jsstring := [34] ++ quote_units s ++ [34].

(** [JSON.stringify(v)]; [None] is the result [undefined].  A number is
    serialised as by [number_to_string], on the same numbers, and NaN as
    [null]. *)
Fixpoint JSON_stringify (v : jsval) : option jsstring :=
  match v with
  | VUndefined => None
  | VNull => Some (js "null")
  | VBool true => Some (js "true")
  | VBool false => Some (js "false")
  | VNumber NaN => Some (js "null")
  | VNumber (Num z) => Some (js (pretty z))
  | VString s => Some (quote s)
  | VArray items =>
      Some (js "[" ++
            join (js ",")
              ((fix go (l : list jsval) : list jsstring :=
                  match l with
                  | [] => []
                  | x :: l' =>
                      match JSON_stringify x with
                      | Some t => t
                      | None => js "null"
                      end :: go l'
                  end) items) ++
            js "]")
  | VObject props =>
      Some (js "{" ++
            join (js ",")
              ((fix go (l : list (jsstring * jsval)) : list jsstring :=
                  match l with
                  | [] => []
                  | (k, x) :: l' =>
                      match JSON_stringify x with
                      | Some t => (quote k ++ js ":" ++ t) :: go l'
                      | None => go l'
                      end
                  end) props) ++
            js "}")
  end.

(** [JSON.stringify] of a string never is [undefined]. *)
Definition JSON_string (s : jsstring) : jsstring := quote s.

(** The double quote and the line feed, which a literal cannot hold. *)
Definition dq : jsstring := [34].
Definition nl : jsstring := [10].

(** *** Property access on objects *)

Fixpoint get (k : jsstring) (o : obj) : jsval :=
  match o with
  | [] => VUndefined
  | (k', v) :: o' => if decide (k = k') then v else get k o'
  end.

(** [o[k] = v]: an existing property keeps its place, a new one goes
    last. *)
Fixpoint set (k : jsstring) (v : jsval) (o : obj) : obj :=
  match o with
  | [] => [(k, v)]
  | (k', v') :: o' =>
      if decide (k = k') then (k', v) :: o' else (k', v') :: set k v o'
  end.

(** [delete o[k]]. *)
Fixpoint del (k : jsstring) (o : obj) : obj :=
  match o with
  | [] => []
  | (k', v') :: o' =>
      if decide (k = k') then o' else (k', v') :: del k o'
  end.

(** [[...new Set(array)]] on strings: first occurrences, in order. *)
Fixpoint dedupe_from (seen : list jsstring) (l : list jsstring) : list jsstring :=
  match l with
  | [] => []
  | x :: l' =>
      if decide (x ∈ seen) then dedupe_from seen l'
      else x :: dedupe_from (x :: seen) l'
  end.

(** *** Exceptions and mutable state

    A computation over a mutable store of type [S] that may throw. *)
Definition M (S A : Type) : Type := S → result (A * S).

Definition mret {S A} (a : A) : M S A := λ s, Ok (a, s).
Definition mthrow {S A} (e : exn) : M S A := λ _, Throw e.
Definition mbind {S A B} (c : M S A) (k : A → M S B) : M S B :=
  λ s, match c s with
       | Ok (a, s') => k a s'
       | Throw e => Throw e
       end.
Definition mlift {S A} (r : result A) : M S A :=
  λ s, match r with Ok a => Ok (a, s) | Throw e => Throw e end.

Notation "'let*' x := c 'in' k" := (mbind c (λ x, k))
  (at level 10, x pattern, c at level 100, k at level 200).

(** [Array.prototype.map] / [forEach] with an effectful callback. *)
Fixpoint mapM {S A B} (f : A → M S B) (l : list A) : M S (list B) :=
  match l with
  | [] => mret []
  | x :: l' =>
      let* y := f x in
      let* ys := mapM f l' in
      mret (y :: ys)
  end.

(** *** The object store

    Objects are referred to by location, so that two references to one
    object see each other's writes.  A location is an index into the
    store; allocation appends. *)
Abbreviation heap := (list (list (list N * jsval))) (only parsing).

(** Locations the store handed out always resolve. *)
Definition deref (h : heap) (l : nat) : obj := default [] (h !! l).

Definition alloc (o : obj) : M heap nat := λ h, Ok (length h, h ++ [o]).

Definition modify (l : nat) (f : obj → obj) : M heap unit :=
  λ h, Ok (tt, <[l := f (deref h l)]> h).

End JS.

Import JS.

(** ** The framework's data, as the two components read it *)

Module Framework.

Record JsError := { message : jsstring; stack : option jsstring }.

Record TrackedPromise := { _error : option JsError; _data : jsval }.

Record DeferredData := {
  pendingKeys : list jsstring;
  deferredKeys : list jsstring;
  data : gmap (list N) TrackedPromise
}.

Record EntryRoute := {
  module : jsstring;
  imports : option (list jsstring)
}.

Record Entry := {
  entry_module : jsstring;
  entry_imports : list jsstring
}.

Record HMR := { runtime : jsstring }.

Record AssetsManifest := {
  url : jsstring;
  entry : Entry;
  routes : gmap (list N) EntryRoute;
  hmr : option HMR
}.

Record RouteMatch := { route_id : jsstring }.

Record Location := { pathname : jsstring }.

Record StaticContext := {
  activeDeferreds : option (list (jsstring * DeferredData))
}.

(** A route module's optional [links] export: a function of the
    application, which returns an array of descriptor objects. *)
Record RouteModule := { links : option (M heap (list nat)) }.

Record RemixContext := {
  manifest : AssetsManifest;
  routeModules : gmap (list N) RouteModule;
  serverHandoffString : option jsstring;
  abortDelay : option number
}.

(** [matchRoutes (router.routes)] is the router's own function; the
    components only call it. *)
Record DataRouterContext := {
  matchRoutes : Location → option (list RouteMatch);
  static : bool;
  staticContext : option StaticContext
}.

Record DataRouterStateContext := { matches : list RouteMatch }.

(** [manifest.routes[id]]; reading a property of a missing route is a
    TypeError. *)
Definition route_of (manifest : AssetsManifest) (m : RouteMatch) : result EntryRoute :=
  match routes manifest !! route_id m with
  | Some r => Ok r
  | None => Throw TypeError
  end.

End Framework.

Import Framework.

(** ** Scripts.tsx *)

Module Scripts.

Record SafeHtml := { __html : jsstring }.

Definition createHtml (html : jsstring) : SafeHtml := {| __html := html |}.

Definition ESCAPE_LOOKUP : list (jsstring * jsstring) :=
  [ (js "&", js "\u0026");
    (js ">", js "\u003e");
    (js "<", js "\u003c");
    ([0x2028], js "\u2028");
    ([0x2029], js "\u2029") ].

(** The global expression with the class of [&], [>], [<], U+2028 and
    U+2029: the code units it matches, one at a time. *)
Definition ESCAPE_REGEX (c : codeunit) : bool :=
  (c =? 38) || (c =? 62) || (c =? 60) || (c =? 0x2028) || (c =? 0x2029).

(** [ESCAPE_LOOKUP[match]]; a missing key reads [undefined]. *)
Fixpoint lookup_table (t : list (jsstring * jsstring)) (k : jsstring)
  : option jsstring :=
  match t with
  | [] => None
  | (k', v) :: t' => if decide (k = k') then Some v else lookup_table t' k
  end.

(** [s.replace(re, fn)] for a global expression that matches single code
    units: each match is replaced by ToString of what [fn] returns. *)
Definition replace_all (re : codeunit → bool)
    (fn : jsstring → option jsstring) (s : jsstring) : jsstring :=
  flat_map (λ c, if re c then
                   match fn [c] with
                   | Some r => r
                   | None => js "undefined"
                   end
                 else [c]) s.

Definition escapeHtml (html : jsstring) : jsstring :=
  replace_all ESCAPE_REGEX (λ m, lookup_table ESCAPE_LOOKUP m) html.

(** [escapeHtml(JSON.stringify(v))]: when [JSON.stringify] returns
    [undefined], calling [.replace] on it is a TypeError. *)
Definition escapeHtml_json (v : jsval) : result jsstring :=
  match JSON_stringify v with
  | Some s => Ok (escapeHtml s)
  | None => Throw TypeError
  end.

(** [new Error(message)]: an absent message is the empty string. *)
Definition new_Error (message : option jsstring) : exn :=
  Error (default [] message).

Definition invariant (value : jsval) (message : option jsstring) : result unit :=
  match value with
  | VBool false | VNull | VUndefined => Throw (new_Error message)
  | _ => Ok tt
  end.

Definition addPrefix (url : jsstring) (prefix : option jsstring) : jsstring :=
  match prefix with
  | Some p => if truthy_str prefix then p ++ url else url
  | None => url
  end.

(** What the component reads outside its props and contexts. *)
Record Env := {
  development : bool;                   (* process.env.NODE_ENV === 'development' *)
  server : bool;                        (* typeof document === 'undefined' *)
  isHydrated : bool;                    (* the module-level flag *)
  global_a : option (option Z);         (* __remixContext.a when __remixContext is an object *)
  navigation_location : option Location (* useNavigation().location *)
}.

(** *** Elements *)

Inductive dhs_key :=
  | KeyStr (s : jsstring)
  | KeyNum (i : nat).

Record DeferredHydrationScriptProps := {
  key : dhs_key;
  deferredData : option DeferredData;
  routeId : option jsstring;
  dataKey : option jsstring
}.

Inductive element :=
  | link_modulepreload (href : jsstring) (crossOrigin : jsval)
  | script (props : obj) (type : option jsstring) (async : bool) (html : SafeHtml)
  | DeferredHydrationScript_el (p : DeferredHydrationScriptProps).

Definition blank_script : element :=
  script [] None true (createHtml (js " ")).

(** What [DeferredHydrationScript] returns: a [Suspense] boundary with
    its fallback ([None] is [null]) and its child. *)
Inductive await_tree :=
  | Await (resolve : option TrackedPromise) (routeId dataKey : jsstring)
  | placeholder (e : element).

Record Suspense := { fallback : option element; children : await_tree }.

(** *** ErrorDeferredHydrationScript *)

Definition toSerialize (dev : bool) (error : JsError) : jsval :=
  VObject [ (js "message", VString (message error));
            (js "stack",
              if dev then
                match stack error with
                | Some st => VString st
                | None => VUndefined
                end
              else VUndefined) ].

(** [error] is what [useAsyncError()] returns. *)
Definition ErrorDeferredHydrationScript (env : Env) (dataKey routeId : jsstring)
    (error : JsError) : result element :=
  rbind (escapeHtml_json (toSerialize (development env) error)) (λ ser,
  Ok (script [] None false
        (createHtml (js "__remixContext.r(" ++ JSON_string routeId ++ js ", " ++
                     JSON_string dataKey ++ js ", !1, " ++ ser ++ js ");")))).

(** *** DeferredHydrationScript *)

(** The test [typeof document === 'undefined' && deferredData && dataKey
    && routeId], with the three values when it passes. *)
Definition server_args (env : Env) (p : DeferredHydrationScriptProps)
  : option (DeferredData * jsstring * jsstring) :=
  if server env then
    match deferredData p, dataKey p, routeId p with
    | Some dd, Some dk, Some rid =>
        if truthy_str (Some dk) && truthy_str (Some rid)
        then Some (dd, dk, rid) else None
    | _, _, _ => None
    end
  else None.

Definition not_pending_message (rid dk : jsstring) : jsstring :=
  js "Deferred data for route " ++ rid ++ js " with key " ++ dk ++
  js " was not pending but tried to render a script for it.".

Definition DeferredHydrationScript (env : Env) (p : DeferredHydrationScriptProps)
  : result Suspense :=
  rbind
    match server_args env p with
    | Some (dd, dk, rid) =>
        invariant (VBool (bool_decide (dk ∈ pendingKeys dd)))
                  (Some (not_pending_message rid dk))
    | None => Ok tt
    end (λ _,
  Ok {| fallback :=
          match server_args env p with
          | Some _ => None
          | None => Some blank_script
          end;
        children :=
          match server_args env p with
          | Some (dd, dk, rid) => Await (data dd !! dk) rid dk
          | None => placeholder blank_script
          end |}).

(** The [children] callback of [Await]: the script rendered once the
    promise resolved with [v]. *)
Definition Await_children (rid dk : jsstring) (v : jsval) : result element :=
  rbind (escapeHtml_json v) (λ ser,
  Ok (script [] None true
        (createHtml (js "__remixContext.r(" ++ JSON_string rid ++ js ", " ++
                     JSON_string dk ++ js ", " ++ ser ++ js ");")))).

(** *** Scripts: the context script *)

Definition stack_line (dev : bool) : jsstring :=
  if dev then js "x.stack=e.stack;" else [].

Definition timeout_line (abortDelay : option number) : jsstring :=
  match abortDelay with
  | Some n =>
      js "setTimeout(() => {if(typeof p._error !== " ++ dq ++ js "undefined" ++ dq ++
      js " || typeof p._data !== " ++ dq ++ js "undefined" ++ dq ++
      js "){return;} __remixContext.t[i][k].e(new Error(" ++ dq ++
      js "Server timeout." ++ dq ++ js "))}, " ++ number_to_string n ++ js ");"
  | None => []
  end.

Definition context_helpers (dev : bool) (abortDelay : option number) : jsstring :=
  join nl
    [ js "__remixContext.p = function(v,e,p,x) {";
      js "  if (typeof e !== 'undefined') {";
      js "    x=new Error(e.message);";
      stack_line dev;
      js "    p=Promise.reject(x);";
      js "  } else {";
      js "    p=Promise.resolve(v);";
      js "  }";
      js "  return p;";
      js "};";
      js "__remixContext.n = function(i,k) {";
      js "  __remixContext.t = __remixContext.t || {};";
      js "  __remixContext.t[i] = __remixContext.t[i] || {};";
      js "  let p = new Promise((r, e) => {__remixContext.t[i][k] = {r:(v)=>{r(v);},e:(v)=>{e(v);}};});";
      timeout_line abortDelay;
      js "  return p;";
      js "};";
      js "__remixContext.r = function(i,k,v,e,p,x) {";
      js "  p = __remixContext.t[i][k];";
      js "  if (typeof e !== 'undefined') {";
      js "    x=new Error(e.message);";
      stack_line dev;
      js "    p.e(x);";
      js "  } else {";
      js "    p.r(v);";
      js "  }";
      js "};" ].

Definition not_resolved_message (k : jsstring) : jsstring :=
  js "The deferred data for " ++ k ++
  js " was not resolved, did you forget to return data from a deferred promise?".

Definition pending_entry (rid k : jsstring) : jsstring :=
  JSON_string k ++ js ":__remixContext.n(" ++ JSON_string rid ++ js ", " ++
  JSON_string k ++ js ")".

Definition error_entry (k ser : jsstring) : jsstring :=
  JSON_string k ++ js ":__remixContext.p(!1, " ++ ser ++ js ")".

Definition data_entry (k ser : jsstring) : jsstring :=
  JSON_string k ++ js ":__remixContext.p(" ++ ser ++ js ")".

(** [deferredScripts.push(x)]. *)
Definition push (x : element) : M (list element) unit :=
  λ deferredScripts, Ok (tt, deferredScripts ++ [x]).

(** The callback mapped over [deferredData.deferredKeys]; the store is
    the array [deferredScripts]. *)
Definition promiseKeyValue (env : Env) (rid : jsstring) (dd : DeferredData)
    (k : jsstring) : M (list element) jsstring :=
  if decide (k ∈ pendingKeys dd) then
    let* _ := push (DeferredHydrationScript_el
                      {| key := KeyStr (rid ++ js " | " ++ k);
                         deferredData := Some dd;
                         routeId := Some rid;
                         dataKey := Some k |}) in
    mret (pending_entry rid k)
  else
    match data dd !! k with
    | None => mthrow TypeError
    | Some trackedPromise =>
        match _error trackedPromise with
        | Some err =>
            let* ser := mlift (escapeHtml_json (toSerialize (development env) err)) in
            mret (error_entry k ser)
        | None =>
            match _data trackedPromise with
            | VUndefined => mthrow (Error (not_resolved_message k))
            | d =>
                let* ser := mlift (escapeHtml_json d) in
                mret (data_entry k ser)
            end
        end
    end.

(** The callback mapped over [Object.entries(activeDeferreds)]. *)
Definition route_assign (env : Env) (e : jsstring * DeferredData)
  : M (list element) jsstring :=
  let '(rid, dd) := e in
  let* promiseKeyValues := mapM (promiseKeyValue env rid dd) (deferredKeys dd) in
  mret (js "Object.assign(__remixContext.state.loaderData[" ++ JSON_string rid ++
        js "], {" ++ join (js "," ++ nl) promiseKeyValues ++ js "});").

Definition active_count_statement (n : nat) : jsstring :=
  if (0 <? n)%nat then js "__remixContext.a=" ++ js (pretty n) ++ js ";" else [].

Definition contextScript (env : Env) (remix : RemixContext)
    (staticContext : option StaticContext) : M (list element) jsstring :=
  let head :=
    match staticContext with
    | Some _ =>
        js "window.__remixContext = " ++
        match serverHandoffString remix with
        | Some h => h
        | None => js "undefined"
        end ++ js ";"
    | None => js " "
    end in
  match staticContext ≫= activeDeferreds with
  | None => mret (head ++ [])
  | Some deferreds =>
      let* assigns := mapM (route_assign env) deferreds in
      λ deferredScripts,
        Ok (head ++ (context_helpers (development env) (abortDelay remix) ++
                     join nl assigns ++
                     active_count_statement (length deferredScripts)),
            deferredScripts)
  end.

(** *** Scripts: the module script *)

Definition import_statement (manifest : AssetsManifest) (prefix : option jsstring)
    (im : nat * RouteMatch) : result jsstring :=
  rbind (route_of manifest im.2) (λ r,
  Ok (js "import * as route" ++ js (pretty im.1) ++ js " from " ++
      JSON_string (addPrefix (module r) prefix) ++ js ";")).

Definition module_binding (im : nat * RouteMatch) : jsstring :=
  JSON_string (route_id im.2) ++ js ":route" ++ js (pretty im.1).

Definition indexed {A} (l : list A) : list (nat * A) := imap (λ i x, (i, x)) l.

Definition hmr_import (manifest : AssetsManifest) : jsstring :=
  match hmr manifest with
  | Some h =>
      if truthy_str (Some (runtime h))
      then js "import " ++ JSON_string (runtime h) ++ js ";"
      else []
  | None => []
  end.

Definition routeModulesScript (isStatic : bool) (manifest : AssetsManifest)
    (prefix : option jsstring) (matches : list RouteMatch) : result jsstring :=
  if negb isStatic then Ok (js " ")
  else
    rbind (rmap (import_statement manifest prefix) (indexed matches)) (λ imports,
    Ok (hmr_import manifest ++
        js "import " ++ JSON_string (addPrefix (url manifest) prefix) ++ js ";" ++ nl ++
        join nl imports ++ nl ++
        js "window.__remixRouteModules = {" ++
        join (js ",") (map module_binding (indexed matches)) ++ js "};" ++ nl ++ nl ++
        js "import(" ++
        JSON_string (addPrefix (entry_module (entry manifest)) prefix) ++ js ");")).

(** The callback of the first [useMemo]; the store is [deferredScripts]. *)
Definition initialScripts (env : Env) (prefix : option jsstring) (props : obj)
    (remix : RemixContext) (router : DataRouterContext)
    (state : DataRouterStateContext) : M (list element) (list element) :=
  let* ctx := contextScript env remix (staticContext router) in
  let* mods := mlift (routeModulesScript (static router) (manifest remix) prefix
                        (matches state)) in
  mret [ script props None false (createHtml ctx);
         script props (Some (js "module")) true (createHtml mods) ].

(** [useMemo(f, [])]: the callback runs on the first render of the
    component instance and its value is kept afterwards.  [memo] is the
    kept value, [None] before the first render. *)
Definition useMemo_once {A} (memo : option A) (f : M (list element) A)
  : M (list element) A :=
  match memo with
  | Some v => mret v
  | None => f
  end.

(** The [for] loop of the client render. *)
Definition client_placeholders (router : DataRouterContext) (env : Env)
  : list element :=
  if negb (static router) then
    match global_a env with
    | Some (Some a) =>
        if (a =? 0)%Z then []
        else map (λ i, DeferredHydrationScript_el
                         {| key := KeyNum i; deferredData := None;
                            routeId := None; dataKey := None |})
                 (seq 0 (Z.to_nat a))
    | _ => []
    end
  else [].

Definition no_match_message (loc : Location) : jsstring :=
  js "No routes match path " ++ dq ++ pathname loc ++ dq.

Definition nextMatches (router : DataRouterContext) (env : Env)
  : result (list RouteMatch) :=
  match navigation_location env with
  | Some loc =>
      match matchRoutes router loc with
      | Some ms =>
          rbind (invariant (VArray []) (Some (no_match_message loc))) (λ _, Ok ms)
      | None =>
          rbind (invariant VNull (Some (no_match_message loc))) (λ _, Ok [])
      end
  | None => Ok []
  end.

Definition route_preloads (manifest : AssetsManifest) (m : RouteMatch)
  : result (list jsstring) :=
  rbind (route_of manifest m) (λ r, Ok (default [] (imports r) ++ [module r])).

Definition dedupe (array : list jsstring) : list jsstring := dedupe_from [] array.

Record Rendered := {
  output : list element;        (* the children of the returned fragment *)
  kept : list element           (* the value the first [useMemo] holds *)
}.

(** The returned fragment. *)
Definition fragment (env : Env) (prefix : option jsstring) (props : obj)
    (manifest : AssetsManifest) (preloads : list jsstring)
    (initialScripts deferredScripts : list element) : list element :=
  let crossOrigin := get (js "crossOrigin") props in
  [ link_modulepreload (addPrefix (url manifest) prefix) crossOrigin;
    link_modulepreload (addPrefix (entry_module (entry manifest)) prefix)
      crossOrigin ] ++
  map (λ path, link_modulepreload (addPrefix path prefix) crossOrigin)
      (dedupe preloads) ++
  (if isHydrated env then [] else initialScripts) ++
  (if isHydrated env then [] else deferredScripts).

Definition Scripts (env : Env) (prefix : option jsstring) (props : obj)
    (remixContext : option RemixContext)
    (routeModules : option DataRouterContext)
    (routerContext : option DataRouterStateContext)
    (memo : option (list element)) : result Rendered :=
  match remixContext, routeModules, routerContext with
  | Some remix, Some router, Some state =>
      rbind (useMemo_once memo
               (initialScripts env prefix props remix router state) [])
        (λ '(initial, pushed),
      let deferredScripts := pushed ++ client_placeholders router env in
      rbind (nextMatches router env) (λ next,
      rbind (rmap (route_preloads (manifest remix)) (matches state ++ next))
        (λ routePreloads,
      let preloads :=
        if isHydrated env then []
        else entry_imports (entry (manifest remix)) ++ concat routePreloads in
      Ok {| output := fragment env prefix props (manifest remix) preloads
                        initial deferredScripts;
            kept := initial |})))
  | _, _, _ => Throw (Error (js "Context Must Provide"))
  end.

End Scripts.

(** ** Links.tsx *)

Module Links.

Definition dedupeHrefs (hrefs : list jsstring) : list jsstring :=
  dedupe_from [] hrefs.

(** [object != null && typeof object.page === 'string'], on an object. *)
Definition isPageLinkDescriptor (object : obj) : bool :=
  match get (js "page") object with
  | VString _ => true
  | _ => false
  end.

(** [v === s] for a string literal [s]. *)
Definition is_string (s : jsstring) (v : jsval) : bool :=
  match v with
  | VString t => bool_decide (t = s)
  | _ => false
  end.

(** [preloadsSet.has(v)]. *)
Definition has (preloads : list jsstring) (v : jsval) : bool :=
  match v with
  | VString t => bool_decide (t ∈ preloads)
  | _ => false
  end.

Definition route_hrefs (manifest : option AssetsManifest) (m : RouteMatch)
  : result (list jsstring) :=
  match manifest with
  | None => Throw TypeError
  | Some mf =>
      rbind (route_of mf m) (λ route,
      Ok ([module route] ++ default [] (imports route)))
  end.

Definition getCurrentPageModulePreloadHrefs (matches : list RouteMatch)
    (manifest : option AssetsManifest) : result (list jsstring) :=
  rbind (rmap (route_hrefs manifest) matches) (λ hrefs,
  Ok (dedupeHrefs (concat hrefs))).

Definition alreadyModulePreload (preloads : list jsstring) (descriptor : obj) : bool :=
  negb (isPageLinkDescriptor descriptor) &&
  is_string (js "script") (get (js "as") descriptor) &&
  truthy (get (js "href") descriptor) &&
  has preloads (get (js "href") descriptor).

(** The key under which [dedupe] remembers a descriptor. *)
Definition descriptor_key (descriptor : obj) : jsstring :=
  default [] (JSON_stringify (VObject descriptor)).

(** The [reduce] of [dedupe], over items that [read] turns into the
    descriptor they stand for: [seen] is the set of keys met so far, and
    the result lists the items pushed onto [deduped]. *)
Fixpoint dedupe_by {A} (read : A → obj) (preloads : list jsstring)
    (seen : list jsstring) (descriptors : list A) : list A :=
  match descriptors with
  | [] => []
  | d :: rest =>
      if alreadyModulePreload preloads (read d)
      then dedupe_by read preloads seen rest
      else
        let str := descriptor_key (read d) in
        if decide (str ∈ seen) then dedupe_by read preloads seen rest
        else d :: dedupe_by read preloads (str :: seen) rest
  end.

(** [dedupe] reads the descriptors through their locations. *)
Definition dedupe (descriptors : list nat) (preloads : list jsstring)
  : M heap (list nat) :=
  λ h, Ok (dedupe_by (deref h) preloads [] descriptors, h).

(** The body of the [forEach] in [getLinksForMatches]. *)
Definition prefix_stylesheet (prefix : jsstring) (link : obj) : obj :=
  if isPageLinkDescriptor link then link
  else
    let href := get (js "href") link in
    let rel := get (js "rel") link in
    if is_string (js "stylesheet") rel && truthy (get (js "href") link)
    then set (js "href") (VString (prefix ++ to_string href)) link
    else link.

(** [module.links?.() || []] *)
Definition call_links (md : RouteModule) : M heap (list nat) :=
  match links md with
  | Some f => f
  | None => mret []
  end.

Definition links_of_match (routeModules : option (gmap (list N) RouteModule))
    (prefix : jsstring) (m : RouteMatch) : M heap (list nat) :=
  match routeModules with
  | None => mthrow TypeError
  | Some rms =>
      match rms !! route_id m with
      | None => mthrow TypeError
      | Some md =>
          let* links := call_links md in
          let* _ := mapM (λ link, modify link (prefix_stylesheet prefix)) links in
          call_links md
      end
  end.

Definition getLinksForMatches (matches : option (list RouteMatch))
    (routeModules : option (gmap (list N) RouteModule))
    (manifest : option AssetsManifest) (prefix : option jsstring)
  : M heap (list nat) :=
  match matches with
  | None => mthrow TypeError
  | Some ms =>
      let* descriptors := mapM (links_of_match routeModules (default [] prefix)) ms in
      let* preloads := mlift (getCurrentPageModulePreloadHrefs ms manifest) in
      dedupe (concat descriptors) preloads
  end.

(** The body of the [forEach] in [Links]. *)
Definition parseLink (prefix : option jsstring) (link : obj) : obj :=
  if negb (isPageLinkDescriptor link) then
    let rel := get (js "rel") link in
    let href := get (js "href") link in
    if is_string (js "stylesheet") rel
    then set (js "href")
           (if truthy_str prefix
            then VString (default [] prefix ++ to_string href) else href) link
    else link
  else
    let page := get (js "page") link in
    if truthy page
    then set (js "page")
           (if truthy_str prefix
            then VString (default [] prefix ++ to_string page) else page) link
    else link.

(** [if (link.a) { link.b = link.a; delete link.a; }] *)
Definition rename_prop (a b : jsstring) (link : obj) : obj :=
  if truthy (get a link) then del a (set b (get a link) link) else link.

(** The attribute normalisation; [useId] is ['useId' in React]. *)
Definition normalize (useId : bool) (link : obj) : obj :=
  if useId then
    rename_prop (js "imagesizes") (js "imageSizes")
      (rename_prop (js "imagesrcset") (js "imageSrcSet") link)
  else
    rename_prop (js "imageSizes") (js "imagesizes")
      (rename_prop (js "imageSrcSet") (js "imagesrcset") link).

(** The elements of the returned fragment, with the props spread onto
    them. *)
Inductive element :=
  | PrefetchPageLinks (props : obj)
  | link (props : obj).

(** The callback of [links.map] in the returned fragment. *)
Definition render_link (useId : bool) (l : nat) : M heap element :=
  λ h,
    if isPageLinkDescriptor (deref h l) then Ok (PrefetchPageLinks (deref h l), h)
    else (let* _ := modify l (normalize useId) in
          λ h', Ok (link (deref h' l), h')) h.

(** One render.  [memo] is the value [useMemo] holds when its dependency
    array is unchanged since the previous render, [None] on a first
    render or after a change.  The result carries the value held
    afterwards. *)
Definition Links (useId : bool) (prefix : option jsstring)
    (remixContext : option RemixContext)
    (routerState : option DataRouterStateContext)
    (memo : option (list nat)) : M heap (list element * list nat) :=
  let* links :=
    match memo with
    | Some v => mret v
    | None =>
        getLinksForMatches (matches <$> routerState)
          (routeModules <$> remixContext) (manifest <$> remixContext) prefix
    end in
  let* _ := mapM (λ l, modify l (parseLink prefix)) links in
  let* els := mapM (render_link useId) links in
  mret (els, links).

(** An array literal of object literals: every evaluation creates new
    objects. *)
Definition fresh (ds : list obj) : M heap (list nat) := mapM alloc ds.

(** A function returning one array of objects created once. *)
Definition shared (ls : list nat) : M heap (list nat) := mret ls.

End Links.

(** ** Vocabulary of the properties *)

Module Statements.

Import Scripts.

(** The state of one deferred key, as the context script tells them
    apart: still pending, settled with an error, settled with data, or
    neither ([Unresolved]: a tracked promise with no [_error] and an
    undefined [_data]; [Missing]: no tracked promise under the key). *)
Inductive key_state :=
  | Pending
  | Rejected (e : JsError)
  | Resolved (d : jsval)
  | Unresolved
  | Missing.

Definition classify (dd : DeferredData) (k : jsstring) : key_state :=
  if decide (k ∈ pendingKeys dd) then Pending
  else
    match data dd !! k with
    | None => Missing
    | Some tp =>
        match _error tp with
        | Some e => Rejected e
        | None =>
            match _data tp with
            | VUndefined => Unresolved
            | d => Resolved d
            end
        end
    end.

Definition ready (dd : DeferredData) (k : jsstring) : bool :=
  match classify dd k with
  | Unresolved | Missing => false
  | _ => true
  end.

(** [escapeHtml(JSON.stringify(v))] for a value that serialises. *)
Definition serialized (v : jsval) : jsstring :=
  escapeHtml (default [] (JSON_stringify v)).

(** The property the script assigns for key [k] of route [rid]. *)
Definition entry_of (env : Env) (rid : jsstring) (dd : DeferredData)
    (k : jsstring) : jsstring :=
  match classify dd k with
  | Pending => pending_entry rid k
  | Rejected e => error_entry k (serialized (toSerialize (development env) e))
  | Resolved d => data_entry k (serialized d)
  | Unresolved | Missing => []
  end.

Definition assignment (env : Env) (e : jsstring * DeferredData) : jsstring :=
  js "Object.assign(__remixContext.state.loaderData[" ++ JSON_string e.1 ++
  js "], {" ++ join (js "," ++ nl) (map (entry_of env e.1 e.2) (deferredKeys e.2)) ++
  js "});".

(** The deferred keys of a route that are pending, in order. *)
Definition pending_of (dd : DeferredData) : list jsstring :=
  filter (λ k, k ∈ pendingKeys dd) (deferredKeys dd).

Definition hydration_element (rid : jsstring) (dd : DeferredData) (k : jsstring)
  : element :=
  DeferredHydrationScript_el
    {| key := KeyStr (rid ++ js " | " ++ k);
       deferredData := Some dd;
       routeId := Some rid;
       dataKey := Some k |}.

Definition pending_elements (deferreds : list (jsstring * DeferredData))
  : list element :=
  flat_map (λ e, map (hydration_element e.1 e.2) (pending_of e.2)) deferreds.

Definition pending_total (deferreds : list (jsstring * DeferredData)) : nat :=
  sum_list (map (λ e, length (pending_of e.2)) deferreds).

Definition all_ready (deferreds : list (jsstring * DeferredData)) : Prop :=
  Forall (λ e, Forall (λ k, ready e.2 k = true) (deferredKeys e.2)) deferreds.

(** The part of the context script before the deferred statements. *)
Definition script_head (remix : RemixContext) : jsstring :=
  js "window.__remixContext = " ++
  default (js "undefined") (serverHandoffString remix) ++ js ";".

Definition is_deferred (e : element) : bool :=
  match e with
  | DeferredHydrationScript_el _ => true
  | _ => false
  end.

(** The [DeferredHydrationScript] elements of a fragment. *)
Definition deferred_elements (l : list element) : list element :=
  filter (λ e, is_deferred e = true) l.

(** The [href]s of the [modulepreload] links of a fragment. *)
Definition preload_hrefs (l : list element) : list jsstring :=
  omap (λ e, match e with link_modulepreload h _ => Some h | _ => None end) l.

(** The [DeferredHydrationScript] elements a render returns, or what it
    throws. *)
Definition deferred_of (r : result Rendered) : result (list element) :=
  rbind r (λ x, Ok (deferred_elements (output x))).

(** Two computations both return, or both throw the same value. *)
Definition same_outcome {A B} (r1 : result A) (r2 : result B) : Prop :=
  match r1, r2 with
  | Ok _, Ok _ => True
  | Throw e1, Throw e2 => e1 = e2
  | _, _ => False
  end.

(** The manifest whose asset URLs are [p] followed by those of [m]: the
    manifest URL, the entry module and its imports, and each route's module
    and imports.  The HMR runtime is left as it is. *)
Definition prefix_route (p : jsstring) (r : EntryRoute) : EntryRoute :=
  {| module := p ++ module r; imports := map (app p) <$> imports r |}.

Definition prefix_assets (p : jsstring) (m : AssetsManifest) : AssetsManifest :=
  {| url := p ++ url m;
     entry := {| entry_module := p ++ entry_module (entry m);
                 entry_imports := map (app p) (entry_imports (entry m)) |};
     routes := prefix_route p <$> routes m;
     hmr := hmr m |}.

(** The same, with the HMR runtime prefixed too. *)
Definition prefix_all (p : jsstring) (m : AssetsManifest) : AssetsManifest :=
  {| url := p ++ url m;
     entry := {| entry_module := p ++ entry_module (entry m);
                 entry_imports := map (app p) (entry_imports (entry m)) |};
     routes := prefix_route p <$> routes m;
     hmr := (λ h, {| runtime := p ++ runtime h |}) <$> hmr m |}.

(** The module script written out, for the matches [ms] whose routes in
    the manifest are [rs], with the manifest URL, each route's module URL
    and the entry module URL passed through [rewrite]; the HMR runtime URL
    is imported as the manifest gives it. *)
Definition module_script_text (rewrite : jsstring → jsstring)
    (mf : AssetsManifest) (ms : list RouteMatch) (rs : list EntryRoute)
  : jsstring :=
  match hmr mf with
  | Some h =>
      match runtime h with
      | [] => []
      | _ :: _ => js "import " ++ JSON_string (runtime h) ++ js ";"
      end
  | None => []
  end ++
  js "import " ++ JSON_string (rewrite (url mf)) ++ js ";" ++ nl ++
  join nl
    (imap (λ i r, js "import * as route" ++ js (pretty i) ++ js " from " ++
                  JSON_string (rewrite (module r)) ++ js ";") rs) ++
  nl ++
  js "window.__remixRouteModules = {" ++
  join (js ",")
    (imap (λ i m, JSON_string (route_id m) ++ js ":route" ++ js (pretty i)) ms) ++
  js "};" ++ nl ++ nl ++
  js "import(" ++ JSON_string (rewrite (entry_module (entry mf))) ++ js ");".

Definition with_manifest (remix : RemixContext) (m : AssetsManifest) : RemixContext :=
  {| manifest := m;
     routeModules := routeModules remix;
     serverHandoffString := serverHandoffString remix;
     abortDelay := abortDelay remix |}.

Definition is_script (e : element) : bool :=
  match e with
  | script _ _ _ _ => true
  | _ => false
  end.

(** What the first [useMemo] holds is nothing yet, or script elements. *)
Definition holds_scripts (memo : option (list element)) : Prop :=
  match memo with
  | None => True
  | Some initial => Forall (λ e, is_script e = true) initial
  end.

(** A string that holds none of the characters [escapeHtml] replaces. *)
Definition html_safe (s : jsstring) : Prop :=
  Forall (λ c, ESCAPE_REGEX c = false) s.


End Statements.

Import Statements.

(** ** Sample inputs *)

Module Examples.

Import Scripts.

Definition cdn : jsstring := js "https://cdn".

Definition root_route : EntryRoute :=
  {| module := js "/build/root.js"; imports := Some [js "/build/shared.js"] |}.

Definition manifest0 : AssetsManifest :=
  {| url := js "/build/manifest.js";
     entry := {| entry_module := js "/build/entry.js";
                 entry_imports := [js "/build/shared.js"] |};
     routes := {[ js "root" := root_route ]};
     hmr := None |}.

(** The manifest of a development build, with the HMR runtime. *)
Definition manifest_dev : AssetsManifest :=
  {| url := js "/build/manifest.js";
     entry := {| entry_module := js "/build/entry.js";
                 entry_imports := [js "/build/shared.js"] |};
     routes := {[ js "root" := root_route ]};
     hmr := Some {| runtime := js "/build/hmr.js" |} |}.

(** Key [a] pending, [b] rejected, [c] resolved. *)
Definition deferred0 : DeferredData :=
  {| pendingKeys := [js "a"];
     deferredKeys := [js "a"; js "b"; js "c"];
     data :=
       {[ js "a" := {| _error := None; _data := VUndefined |};
          js "b" := {| _error := Some {| message := js "boom"; stack := None |};
                       _data := VUndefined |};
          js "c" := {| _error := None; _data := VString (js "/build/a.js") |} ]} |}.

(** Two keys that are neither pending nor settled. *)
Definition deferred_unresolved : DeferredData :=
  {| pendingKeys := [];
     deferredKeys := [js "x"; js "y"];
     data :=
       {[ js "x" := {| _error := None; _data := VUndefined |};
          js "y" := {| _error := None; _data := VUndefined |} ]} |}.

Definition stylesheet_a : obj :=
  [ (js "rel", VString (js "stylesheet")); (js "href", VString (js "/a.css")) ].

Definition page_x : obj := [ (js "page", VString (js "/x")) ].

Definition page_empty : obj := [ (js "page", VString []) ].

(** A root module like [app/root.tsx]: every call of [links] builds its
    array anew. *)
Definition root_module (ds : list obj) : RouteModule :=
  {| links := Some (Links.fresh ds) |}.

Definition remix_links (ds : list obj) : RemixContext :=
  {| manifest := manifest0; routeModules := {[ js "root" := root_module ds ]};
     serverHandoffString := None; abortDelay := None |}.

Definition remix0 : RemixContext :=
  {| manifest := manifest0; routeModules := ∅;
     serverHandoffString := Some (js "{}"); abortDelay := Some (Num 5000) |}.

Definition remix_dev : RemixContext :=
  {| manifest := manifest_dev; routeModules := ∅;
     serverHandoffString := Some (js "{}"); abortDelay := Some (Num 5000) |}.

Definition static0 (deferreds : list (jsstring * DeferredData)) : StaticContext :=
  {| activeDeferreds := Some deferreds |}.

Definition router_server (deferreds : list (jsstring * DeferredData))
  : DataRouterContext :=
  {| matchRoutes := λ _, None; static := true;
     staticContext := Some (static0 deferreds) |}.

Definition router_client : DataRouterContext :=
  {| matchRoutes := λ _, None; static := false; staticContext := None |}.

Definition state0 : DataRouterStateContext :=
  {| matches := [ {| route_id := js "root" |} ] |}.

Definition server_env : Env :=
  {| development := false; server := true; isHydrated := false;
     global_a := None; navigation_location := None |}.

(** The browser while hydrating a page the server rendered with two
    pending keys, and the same browser after hydration. *)
Definition hydrating_env : Env :=
  {| development := false; server := false; isHydrated := false;
     global_a := Some (Some 2%Z); navigation_location := None |}.

Definition hydrated_env : Env :=
  {| development := false; server := false; isHydrated := true;
     global_a := Some (Some 2%Z); navigation_location := None |}.

(** What the first [useMemo] of [Scripts] holds after a client render:
    the two blank scripts. *)
Definition kept_client : list element :=
  [ script [] None false (createHtml (js " "));
    script [] (Some (js "module")) true (createHtml (js " ")) ].

End Examples.

(** ** Vocabulary of the properties of Links *)

Module LinksStatements.

Import Links.

(** [f] is a [links] function written as an array literal of object
    literals: called on any store, it creates the descriptors [ds] anew
    and returns their locations. *)
Definition returns_fresh (f : M heap (list nat)) (ds : list obj) : Prop :=
  ∀ h, f h = Ok (seq (length h) (length ds), h ++ ds).

(** The descriptors of a route module: those its [links] function creates
    on each call, none when it exports no [links]. *)
Definition module_descriptors (md : RouteModule) (ds : list obj) : Prop :=
  match links md with
  | Some f => returns_fresh f ds
  | None => ds = []
  end.

(** Every match has a module, with these descriptors. *)
Definition matched_descriptors (rms : gmap (list N) RouteModule)
    (ms : list RouteMatch) (dss : list (list obj)) : Prop :=
  Forall2 (λ m ds, ∃ md, rms !! route_id m = Some md ∧ module_descriptors md ds)
          ms dss.

(** The element rendered for a descriptor as [Links] finds it in the
    store. *)
Definition emitted (useId : bool) (o : obj) : element :=
  if isPageLinkDescriptor o then PrefetchPageLinks o
  else link (normalize useId o).

(** The descriptors [dedupe] keeps, as values. *)
Definition kept_descriptors (preloads : list jsstring) (ds : list obj) : list obj :=
  dedupe_by (λ o, o) preloads [] ds.

(** Two renders in a row of one component instance with unchanged
    dependencies: the second finds what the first computed. *)
Definition render_twice (useId : bool) (prefix : option jsstring)
    (remixContext : option RemixContext)
    (routerState : option DataRouterStateContext)
  : M heap (list element * list element) :=
  let* r1 := Links useId prefix remixContext routerState None in
  let* r2 := Links useId prefix remixContext routerState (Some r1.2) in
  mret (r1.1, r2.1).

(** [n] renders in a row of one component instance with unchanged
    dependencies, the first of them with [memo]: each later render finds
    what the render before it held.  The result lists what each render
    returned, and the value held after the last. *)
Fixpoint render_again (useId : bool) (prefix : option jsstring)
    (remixContext : option RemixContext)
    (routerState : option DataRouterStateContext)
    (memo : option (list nat)) (n : nat)
  : M heap (list (list element) * option (list nat)) :=
  match n with
  | O => mret ([], memo)
  | S n =>
      let* r := Links useId prefix remixContext routerState memo in
      let* rest :=
        render_again useId prefix remixContext routerState (Some r.2) n in
      mret (r.1 :: rest.1, rest.2)
  end.

(** The object a descriptor is in the store after one render of [Links]. *)
Definition rendered_object (useId : bool) (prefix : option jsstring) (d : obj)
  : obj :=
  let o := parseLink prefix d in
  if isPageLinkDescriptor o then o else normalize useId o.

End LinksStatements.

(** * Properties *)

Import Scripts.

(** ** The helpers of Scripts.tsx *)

Lemma ESCAPE_REGEX_cases (c : N) :
  ESCAPE_REGEX c = true →
  c = 38 ∨ c = 62 ∨ c = 60 ∨ c = 0x2028 ∨ c = 0x2029.
Proof.
  unfold ESCAPE_REGEX. rewrite !orb_true_iff, !N.eqb_eq. tauto.
Qed.

(** The table has an entry for every code unit the expression matches,
    and the entry is that unit's escape sequence. *)
Lemma ESCAPE_LOOKUP_complete (c : N) :
  ESCAPE_REGEX c = true →
  lookup_table ESCAPE_LOOKUP [c] = Some (unicode_escape c).
Proof.
  intros H. destruct (ESCAPE_REGEX_cases c H) as [->|[->|[->|[->| ->]]]];
    reflexivity.
Qed.

Lemma unicode_escape_clean (c : N) :
  ESCAPE_REGEX c = true →
  Forall (λ d, ESCAPE_REGEX d = false) (unicode_escape c).
Proof.
  intros H. destruct (ESCAPE_REGEX_cases c H) as [->|[->|[->|[->| ->]]]];
    repeat constructor.
Qed.

Lemma escapeHtml_cons (c : N) (s : list N) :
  escapeHtml (c :: s) =
  (if ESCAPE_REGEX c then unicode_escape c else [c]) ++ escapeHtml s.
Proof.
  unfold escapeHtml, replace_all. cbn [flat_map]. f_equal.
  destruct (ESCAPE_REGEX c) eqn:E; [|done].
  by rewrite (ESCAPE_LOOKUP_complete c E).
Qed.

Lemma escapeHtml_app (s t : list N) :
  escapeHtml (s ++ t) = escapeHtml s ++ escapeHtml t.
Proof. unfold escapeHtml, replace_all. apply flat_map_app. Qed.

Lemma escapeHtml_clean (s : list N) :
  Forall (λ d, ESCAPE_REGEX d = false) (escapeHtml s).
Proof.
  induction s as [|c s IH]; [constructor|].
  rewrite escapeHtml_cons. apply Forall_app. split; [|done].
  destruct (ESCAPE_REGEX c) eqn:E.
  - by apply unicode_escape_clean.
  - by constructor.
Qed.

Lemma escapeHtml_fixed (s : list N) :
  Forall (λ d, ESCAPE_REGEX d = false) s → escapeHtml s = s.
Proof.
  induction 1 as [|c s Hc _ IH]; [done|].
  rewrite escapeHtml_cons, Hc, IH. done.
Qed.

(** C9. [escapeHtml s] holds none of [&], [<], [>], U+2028, U+2029: each
    of them is replaced by its six-unit [\uXXXX] escape and every other
    code unit is copied; hence [escapeHtml] is idempotent. *)
Theorem escapeHtml_escapes_and_idempotent (s : list N) :
  Forall (λ c, c ≠ 38 ∧ c ≠ 60 ∧ c ≠ 62 ∧ c ≠ 0x2028 ∧ c ≠ 0x2029) (escapeHtml s)
  ∧ escapeHtml s =
      flat_map (λ c, if bool_decide (c ∈ [38; 60; 62; 0x2028; 0x2029])
                     then unicode_escape c else [c]) s
  ∧ Forall (λ c, length (unicode_escape c) = 6%nat) [38; 60; 62; 0x2028; 0x2029]
  ∧ escapeHtml (escapeHtml s) = escapeHtml s.
Proof.
  split; [|split; [|split]].
  - eapply Forall_impl; [apply escapeHtml_clean|].
    intros c Hc. cbv beta in Hc. unfold ESCAPE_REGEX in Hc.
    rewrite !orb_false_iff, !N.eqb_neq in Hc. tauto.
  - induction s as [|c s IH]; [done|].
    rewrite escapeHtml_cons, IH. cbn [flat_map]. f_equal.
    destruct (ESCAPE_REGEX c) eqn:E.
    + rewrite bool_decide_eq_true_2; [done|].
      rewrite !elem_of_cons. apply ESCAPE_REGEX_cases in E. tauto.
    + rewrite bool_decide_eq_false_2; [done|].
      unfold ESCAPE_REGEX in E. rewrite !orb_false_iff, !N.eqb_neq in E.
      rewrite !elem_of_cons, elem_of_nil. tauto.
  - repeat constructor.
  - apply escapeHtml_fixed, escapeHtml_clean.
Qed.

(** C8. [invariant] throws exactly when its first argument is [false],
    [null] or [undefined]; every other value, the falsy [0], [NaN] and
    [''] included, returns; the thrown [Error] carries the message. *)
Theorem invariant_throws_iff (value : jsval) (message : list N) :
  (invariant value (Some message) = Throw (Error message)
   ↔ value = VBool false ∨ value = VNull ∨ value = VUndefined)
  ∧ (invariant value (Some message) = Ok tt
     ↔ ¬ (value = VBool false ∨ value = VNull ∨ value = VUndefined))
  ∧ invariant (VNumber (Num 0)) (Some message) = Ok tt
  ∧ invariant (VNumber NaN) (Some message) = Ok tt
  ∧ invariant (VString []) (Some message) = Ok tt.
Proof.
  split; [|split]; [| |done].
  - destruct value as [| |[]| | | |]; cbn;
      (split; [intros ?; simplify_eq; auto | intros [?|[?|?]]; by simplify_eq]).
  - destruct value as [| |[]| | | |]; cbn;
      (split; [intros ? [?|[?|?]]; by simplify_eq | intros Hn; try done]);
      exfalso; apply Hn; auto.
Qed.

(** C10. [addPrefix] with the empty string or with no prefix is the
    identity, so [Scripts] renders the same with [prefix=''] as with no
    prefix. *)
Theorem addPrefix_empty_identity (url : list N) :
  addPrefix url (Some []) = url
  ∧ addPrefix url None = url
  ∧ ∀ env props remixContext routeModules routerContext memo,
      Scripts env (Some []) props remixContext routeModules routerContext memo =
      Scripts env None props remixContext routeModules routerContext memo.
Proof. split; [done|]. split; [done|]. intros. reflexivity. Qed.

(** C3. When one of the three contexts is missing, [Scripts] throws and
    renders nothing. *)
Theorem Scripts_missing_context env prefix props
    (remixContext : option RemixContext)
    (routeModules : option DataRouterContext)
    (routerContext : option DataRouterStateContext) memo :
  remixContext = None ∨ routeModules = None ∨ routerContext = None →
  Scripts env prefix props remixContext routeModules routerContext memo =
  Throw (Error (js "Context Must Provide")).
Proof.
  intros [->|[->| ->]]; unfold Scripts.
  - done.
  - by destruct remixContext.
  - by destruct remixContext, routeModules.
Qed.

Lemma Scripts_missing_context_witness :
  Scripts Examples.server_env (Some Examples.cdn) [] None
    (Some (Examples.router_server [])) (Some Examples.state0) None =
  Throw (Error (js "Context Must Provide")).
Proof.
  apply (Scripts_missing_context Examples.server_env (Some Examples.cdn) [] None
           (Some (Examples.router_server [])) (Some Examples.state0) None).
  left. reflexivity.
Defined.

(** ** Running effectful traversals *)

Lemma mapM_cons {S A B} (f : A → M S B) (x : A) (l : list A) (s : S) :
  mapM f (x :: l) s =
  match f x s with
  | Ok (y, s') =>
      match mapM f l s' with
      | Ok (ys, s'') => Ok (y :: ys, s'')
      | Throw e => Throw e
      end
  | Throw e => Throw e
  end.
Proof.
  cbn [mapM]. unfold mbind, mret. destruct (f x s) as [[y s']|]; [|done].
  by destruct (mapM f l s') as [[ys s'']|].
Qed.

Lemma mapM_throw {S A B} (f : A → M S B) (l1 l2 : list A) (x : A)
    (ys : list B) (s s' : S) (e : exn) :
  mapM f l1 s = Ok (ys, s') → f x s' = Throw e →
  mapM f (l1 ++ x :: l2) s = Throw e.
Proof.
  revert ys s. induction l1 as [|a l1 IH]; intros ys s H1 Hx.
  - cbn in H1. unfold mret in H1. simplify_eq. cbn [app]. by rewrite mapM_cons, Hx.
  - cbn [app]. rewrite mapM_cons. rewrite mapM_cons in H1.
    destruct (f a s) as [[y s1]|]; [|done].
    destruct (mapM f l1 s1) as [[ys1 s2]|] eqn:E; [|done]. simplify_eq.
    by rewrite (IH _ _ E Hx).
Qed.

(** ** The context script *)

Lemma JSON_stringify_defined (v : jsval) :
  v ≠ VUndefined → escapeHtml_json v = Ok (serialized v).
Proof.
  intros Hv. unfold escapeHtml_json, serialized.
  destruct v as [| |[]|[]| | |]; done.
Qed.

Lemma promiseKeyValue_ready env rid dd k ds :
  ready dd k = true →
  promiseKeyValue env rid dd k ds =
  Ok (entry_of env rid dd k,
      ds ++ (if decide (k ∈ pendingKeys dd) then [hydration_element rid dd k] else [])).
Proof.
  unfold ready, entry_of, classify, promiseKeyValue.
  destruct (decide (k ∈ pendingKeys dd)); [done|].
  destruct (data dd !! k) as [tp|]; [|done].
  destruct (_error tp) as [err|].
  - intros _. unfold mbind, mlift, mret.
    rewrite JSON_stringify_defined by (by unfold toSerialize).
    by rewrite app_nil_r.
  - destruct (_data tp) eqn:Ed; try done; intros _; unfold mbind, mlift, mret;
      (rewrite JSON_stringify_defined by done); by rewrite app_nil_r.
Qed.

Lemma promiseKeyValue_unresolved env rid dd k ds :
  classify dd k = Unresolved →
  promiseKeyValue env rid dd k ds = Throw (Error (not_resolved_message k)).
Proof.
  unfold classify, promiseKeyValue.
  destruct (decide (k ∈ pendingKeys dd)); [done|].
  destruct (data dd !! k) as [tp|]; [|done].
  destruct (_error tp) as [err|]; [done|].
  by destruct (_data tp).
Qed.

Lemma keys_ready env rid dd ks ds :
  Forall (λ k, ready dd k = true) ks →
  mapM (promiseKeyValue env rid dd) ks ds =
  Ok (map (entry_of env rid dd) ks,
      ds ++ map (hydration_element rid dd) (filter (λ k, k ∈ pendingKeys dd) ks)).
Proof.
  intros H. revert ds. induction H as [|k ks Hk _ IH]; intros ds.
  - cbn. unfold mret. by rewrite app_nil_r.
  - rewrite mapM_cons, promiseKeyValue_ready, IH by done.
    cbn [map]. rewrite filter_cons. destruct (decide (k ∈ pendingKeys dd)).
    + cbn [map]. by rewrite <- app_assoc.
    + by rewrite app_nil_r.
Qed.

Lemma routes_ready env deferreds ds :
  all_ready deferreds →
  mapM (route_assign env) deferreds ds =
  Ok (map (assignment env) deferreds, ds ++ pending_elements deferreds).
Proof.
  intros H. revert ds. induction H as [|[rid dd] rest Hk _ IH]; intros ds.
  - cbn. unfold mret. by rewrite app_nil_r.
  - rewrite mapM_cons. unfold route_assign at 1. unfold mbind at 1.
    rewrite keys_ready by done. unfold mret at 1. rewrite IH.
    unfold pending_elements. cbn [flat_map map fst snd]. unfold pending_of.
    by rewrite <- app_assoc.
Qed.

Lemma pending_elements_length deferreds :
  length (pending_elements deferreds) = pending_total deferreds.
Proof.
  unfold pending_elements, pending_total.
  induction deferreds as [|e rest IH]; [done|].
  cbn [flat_map map sum_list]. by rewrite length_app, length_map, IH.
Qed.

Lemma contextScript_ready env remix sc deferreds :
  activeDeferreds sc = Some deferreds → all_ready deferreds →
  contextScript env remix (Some sc) [] =
  Ok (script_head remix ++
      context_helpers (development env) (abortDelay remix) ++
      join nl (map (assignment env) deferreds) ++
      active_count_statement (pending_total deferreds),
      pending_elements deferreds).
Proof.
  intros Hsc H. unfold contextScript.
  change (Some sc ≫= activeDeferreds) with (activeDeferreds sc). rewrite Hsc.
  unfold mbind. rewrite routes_ready by done. cbn [app].
  rewrite pending_elements_length. unfold script_head.
  destruct (serverHandoffString remix); cbn [default]; by rewrite <- !app_assoc.
Qed.

Lemma promiseKeyValue_not_ready env rid dd k ds :
  ready dd k = false → ∃ e, promiseKeyValue env rid dd k ds = Throw e.
Proof.
  unfold ready, classify, promiseKeyValue.
  destruct (decide (k ∈ pendingKeys dd)); [done|].
  destruct (data dd !! k) as [tp|]; [|by eexists].
  destruct (_error tp) as [err|]; [done|].
  destruct (_data tp); try done. by eexists.
Qed.

Lemma keys_returned env rid dd ks ds r :
  mapM (promiseKeyValue env rid dd) ks ds = Ok r →
  Forall (λ k, ready dd k = true) ks.
Proof.
  revert ds r. induction ks as [|k ks IH]; intros ds r H; [constructor|].
  rewrite mapM_cons in H. destruct (ready dd k) eqn:Hk.
  - constructor; [done|]. rewrite promiseKeyValue_ready in H by done.
    destruct (mapM _ ks _) as [[ys s'']|] eqn:E; [|done]. by eapply IH.
  - destruct (promiseKeyValue_not_ready env rid dd k ds Hk) as [e He].
    by rewrite He in H.
Qed.

Lemma routes_returned env deferreds ds r :
  mapM (route_assign env) deferreds ds = Ok r → all_ready deferreds.
Proof.
  revert ds r. induction deferreds as [|[rid dd] rest IH]; intros ds r H;
    [constructor|].
  rewrite mapM_cons in H. unfold route_assign at 1, mbind at 1 in H.
  destruct (mapM (promiseKeyValue env rid dd) _ ds) as [[ys s1]|] eqn:E; [|done].
  unfold mret at 1 in H.
  destruct (mapM (route_assign env) rest s1) as [[zs s2]|] eqn:E2; [|done].
  constructor; [by eapply keys_returned|by eapply IH].
Qed.

Lemma contextScript_returned env remix sc deferreds r :
  activeDeferreds sc = Some deferreds →
  contextScript env remix (Some sc) [] = Ok r → all_ready deferreds.
Proof.
  intros Hsc. unfold contextScript.
  change (Some sc ≫= activeDeferreds) with (activeDeferreds sc). rewrite Hsc.
  unfold mbind. destruct (mapM _ deferreds []) as [[zs s2]|] eqn:E; [|done].
  intros _. by eapply routes_returned.
Qed.




Lemma contextScript_unresolved env remix sc before rid dd after ks1 k ks2 :
  activeDeferreds sc = Some (before ++ (rid, dd) :: after) →
  all_ready before →
  deferredKeys dd = ks1 ++ k :: ks2 →
  Forall (λ k', ready dd k' = true) ks1 →
  classify dd k = Unresolved →
  contextScript env remix (Some sc) [] = Throw (Error (not_resolved_message k)).
Proof.
  intros Hsc Hb Hks Hk1 Hk. unfold contextScript.
  change (Some sc ≫= activeDeferreds) with (activeDeferreds sc). rewrite Hsc.
  unfold mbind.
  rewrite (mapM_throw (route_assign env) before after (rid, dd) _ [] _
             (Error (not_resolved_message k)) (routes_ready env before [] Hb));
    [done|].
  unfold route_assign, mbind. rewrite Hks.
  rewrite (mapM_throw (promiseKeyValue env rid dd) ks1 ks2 k _ _ _
             (Error (not_resolved_message k)) (keys_ready env rid dd ks1 _ Hk1));
    [done|].
  by apply promiseKeyValue_unresolved.
Qed.

(** C4 (amended).  (i) The step of initial-script generation for a
    deferred key that is not pending and whose tracked promise has neither
    an [_error] nor a defined [_data] throws an error naming that key, and
    [Scripts] throws the error of the first such key.  (ii) On the server,
    [DeferredHydrationScript] given deferred data, a non-empty key and a
    non-empty route id throws, when the key is not among [pendingKeys], an
    error naming the route id and the key.  With the empty string as key
    or as route id the check is skipped, whatever [pendingKeys] holds, and
    the component returns its placeholder. *)
Theorem deferred_data_errors env :
  (∀ rid dd k ds,
     k ∉ pendingKeys dd →
     data dd !! k = Some {| _error := None; _data := VUndefined |} →
     promiseKeyValue env rid dd k ds =
     Throw (Error (js "The deferred data for " ++ k ++
                   js " was not resolved, did you forget to return data from a deferred promise?")))
  ∧ (∀ prefix props remix router state sc before rid dd after ks1 k ks2,
       staticContext router = Some sc →
       activeDeferreds sc = Some (before ++ (rid, dd) :: after) →
       all_ready before →
       deferredKeys dd = ks1 ++ k :: ks2 →
       Forall (λ k', ready dd k' = true) ks1 →
       classify dd k = Unresolved →
       Scripts env prefix props (Some remix) (Some router) (Some state) None =
       Throw (Error (js "The deferred data for " ++ k ++
                     js " was not resolved, did you forget to return data from a deferred promise?")))
  ∧ (∀ p dd dk rid,
       server env = true →
       deferredData p = Some dd → dataKey p = Some dk → routeId p = Some rid →
       dk ≠ [] → rid ≠ [] →
       dk ∉ pendingKeys dd →
       DeferredHydrationScript env p =
       Throw (Error (js "Deferred data for route " ++ rid ++ js " with key " ++ dk ++
                     js " was not pending but tried to render a script for it.")))
  ∧ (∀ p,
       dataKey p = Some [] ∨ routeId p = Some [] →
       DeferredHydrationScript env p =
       Ok {| fallback := Some (script [] None true (createHtml (js " ")));
             children := placeholder (script [] None true (createHtml (js " "))) |}).
Proof.
  split; [|split; [|split]]; cycle 3.
  - intros p Hempty. unfold DeferredHydrationScript.
    assert (Hargs : server_args env p = None).
    { unfold server_args. destruct (server env); [|done].
      destruct (deferredData p) as [dd|]; [|done].
      destruct (dataKey p) as [dk|]; [|done].
      destruct (routeId p) as [rid|]; [|done].
      destruct Hempty as [H|H]; injection H as ->; [done|].
      by destruct dk. }
    by rewrite Hargs.
  - intros rid dd k ds Hk Hd. apply promiseKeyValue_unresolved.
    unfold classify. rewrite decide_False by done. by rewrite Hd.
  - intros prefix props remix router state sc before rid dd after ks1 k ks2
      Hst Hsc Hb Hks Hk1 Hk.
    unfold Scripts, useMemo_once, initialScripts. unfold mbind at 1.
    rewrite Hst.
    by rewrite (contextScript_unresolved env remix sc before rid dd after ks1 k ks2).
  - intros p dd dk rid Hs Hdd Hdk Hrid Hk Hr Hp.
    unfold DeferredHydrationScript, server_args. rewrite Hs, Hdd, Hdk, Hrid.
    destruct dk as [|c dk]; [done|]. destruct rid as [|c' rid]; [done|].
    cbn [truthy_str andb]. by rewrite bool_decide_eq_false_2.
Qed.

Lemma deferred_data_errors_witness :
  promiseKeyValue Examples.server_env (js "root") Examples.deferred_unresolved
    (js "x") [] =
  Throw (Error (js "The deferred data for x was not resolved, did you forget to return data from a deferred promise?"))
  ∧ Scripts Examples.server_env (Some Examples.cdn) [] (Some Examples.remix0)
      (Some (Examples.router_server
               [(js "root", Examples.deferred0);
                (js "other", Examples.deferred_unresolved)]))
      (Some Examples.state0) None =
    Throw (Error (not_resolved_message (js "x")))
  ∧ DeferredHydrationScript Examples.server_env
      {| key := KeyStr (js "root | c");
         deferredData := Some Examples.deferred0;
         routeId := Some (js "root"); dataKey := Some (js "c") |} =
    Throw (Error (js "Deferred data for route root with key c was not pending but tried to render a script for it."))
  ∧ DeferredHydrationScript Examples.server_env
      {| key := KeyStr (js " | c");
         deferredData := Some Examples.deferred0;
         routeId := Some []; dataKey := Some (js "c") |} =
    Ok {| fallback := Some (script [] None true (createHtml (js " ")));
          children := placeholder (script [] None true (createHtml (js " "))) |}.
Proof.
  destruct (deferred_data_errors Examples.server_env) as (H1 & H2 & H3 & H4).
  split; [|split; [|split]]; cycle 3.
  - apply H4. right. reflexivity.
  - apply (H1 (js "root") Examples.deferred_unresolved (js "x") []).
    + apply (bool_decide_unpack _). by vm_compute.
    + reflexivity.
  - apply (H2 (Some Examples.cdn) [] Examples.remix0 _ Examples.state0
             (Examples.static0 [(js "root", Examples.deferred0);
                                (js "other", Examples.deferred_unresolved)])
             [(js "root", Examples.deferred0)] (js "other")
             Examples.deferred_unresolved [] [] (js "x") [js "y"]);
      try reflexivity.
    + repeat constructor.
    + constructor.
  - apply (H3 _ Examples.deferred0 (js "c") (js "root")); try reflexivity.
    + done.
    + done.
    + apply (bool_decide_unpack _). by vm_compute.
Defined.

(** C4, as stated, fails: with the empty string as key (or as route id)
    the guard of [DeferredHydrationScript] does not pass, and the
    component returns its placeholder although the key is not pending. *)
Lemma deferred_not_pending_empty_key_returns :
  ¬ (∀ env p dd dk rid,
       server env = true →
       deferredData p = Some dd → dataKey p = Some dk → routeId p = Some rid →
       dk ∉ pendingKeys dd →
       DeferredHydrationScript env p = Throw (Error (not_pending_message rid dk))).
Proof.
  intros H.
  specialize (H Examples.server_env
                {| key := KeyStr (js "root | ");
                   deferredData := Some Examples.deferred0;
                   routeId := Some (js "root"); dataKey := Some [] |}
                Examples.deferred0 [] (js "root") eq_refl eq_refl eq_refl eq_refl).
  assert (Hn : [] ∉ pendingKeys Examples.deferred0).
  { apply (bool_decide_unpack _). by vm_compute. }
  specialize (H Hn). vm_compute in H. discriminate.
Qed.



(** ** One render of [Scripts] *)

Lemma deferred_elements_app (l1 l2 : list element) :
  deferred_elements (l1 ++ l2) = deferred_elements l1 ++ deferred_elements l2.
Proof. apply filter_app. Qed.

Lemma deferred_elements_none (l : list element) :
  Forall (λ e, is_deferred e = false) l → deferred_elements l = [].
Proof.
  unfold deferred_elements. induction 1 as [|e l He _ IH]; [done|].
  rewrite filter_cons, decide_False; [done|]. by rewrite He.
Qed.


Lemma pending_elements_deferred deferreds :
  Forall (λ e, is_deferred e = true) (pending_elements deferreds).
Proof.
  unfold pending_elements. induction deferreds as [|e rest IH]; [constructor|].
  cbn [flat_map]. apply Forall_app. split; [|done].
  apply Forall_forall. intros x Hx. apply list_elem_of_In in Hx.
  apply in_map_iff in Hx as (k & <- & _). done.
Qed.

Lemma client_placeholders_deferred router env :
  Forall (λ e, is_deferred e = true) (client_placeholders router env).
Proof.
  unfold client_placeholders. destruct (negb (static router)); [|constructor].
  destruct (global_a env) as [[a|]|]; try constructor.
  destruct (a =? 0)%Z; [constructor|].
  apply Forall_forall. intros x Hx. apply list_elem_of_In in Hx.
  apply in_map_iff in Hx as (k & <- & _). done.
Qed.

(** The links of the fragment are no hydration elements. *)
Lemma fragment_deferred env prefix props manifest preloads initial deferredScripts :
  deferred_elements
    (fragment env prefix props manifest preloads initial deferredScripts) =
  if isHydrated env then []
  else deferred_elements initial ++ deferred_elements deferredScripts.
Proof.
  unfold fragment. rewrite !deferred_elements_app.
  rewrite (deferred_elements_none [_; _]) by (by repeat constructor).
  rewrite (deferred_elements_none (map _ _)).
  - by destruct (isHydrated env).
  - apply Forall_forall. intros x Hx. apply list_elem_of_In in Hx.
    apply in_map_iff in Hx as (k & <- & _). done.
Qed.

(** Runs the remaining steps of a render that returned. *)
Ltac render_steps H :=
  repeat (cbn [rbind] in H;
          match type of H with
          | context [rbind ?c _] =>
              let x := fresh "x" in
              destruct c as [x|] eqn:?; [|discriminate H]
          end);
  cbn [rbind] in H; injection H as <-; cbn [output kept].

(** A first render with the three contexts, step by step. *)
Lemma Scripts_first_render env prefix props remix router state :
  Scripts env prefix props (Some remix) (Some router) (Some state) None =
  rbind (contextScript env remix (staticContext router) []) (λ '(ctx, pushed),
  rbind (routeModulesScript (static router) (manifest remix) prefix
           (matches state)) (λ mods,
  rbind (nextMatches router env) (λ next,
  rbind (rmap (route_preloads (manifest remix)) (matches state ++ next))
    (λ routePreloads,
  Ok {| output :=
          fragment env prefix props (manifest remix)
            (if isHydrated env then []
             else entry_imports (entry (manifest remix)) ++ concat routePreloads)
            [ script props None false (createHtml ctx);
              script props (Some (js "module")) true (createHtml mods) ]
            (pushed ++ client_placeholders router env);
        kept := [ script props None false (createHtml ctx);
                  script props (Some (js "module")) true (createHtml mods) ] |})))).
Proof.
  unfold Scripts, useMemo_once, initialScripts, mbind, mlift, mret.
  destruct (contextScript env remix (staticContext router) []) as [[ctx ds]|];
    [|done].
  cbn [rbind]. by destruct (routeModulesScript _ _ _ _).
Qed.




(** ** The prefix and the hydration scripts *)

Lemma import_statements_outcome manifest p1 p2 (il : list (nat * RouteMatch)) :
  same_outcome (rmap (import_statement manifest p1) il)
               (rmap (import_statement manifest p2) il).
Proof.
  induction il as [|im il IH]; [done|].
  cbn [rmap]. unfold import_statement at 1 3.
  destruct (route_of manifest im.2) as [r|e]; [|done]. cbn [rbind].
  destruct (rmap (import_statement manifest p1) il),
           (rmap (import_statement manifest p2) il); done.
Qed.

Lemma routeModulesScript_outcome isStatic manifest p1 p2 ms :
  same_outcome (routeModulesScript isStatic manifest p1 ms)
               (routeModulesScript isStatic manifest p2 ms).
Proof.
  unfold routeModulesScript. destruct (negb isStatic); [done|].
  pose proof (import_statements_outcome manifest p1 p2 (indexed ms)) as H.
  destruct (rmap (import_statement manifest p1) (indexed ms)),
           (rmap (import_statement manifest p2) (indexed ms)); done.
Qed.

(** C7 (amended).  The hydration scripts carry no URL of the manifest and
    the prefix does not reach them: the [DeferredHydrationScript] elements
    [Scripts] returns are the same for every prefix, and the script
    streamed for a resolved key holds the serialised data as it is. *)
Theorem deferred_scripts_ignore_prefix env p1 p2 props remixContext
    routeModules routerContext memo :
  deferred_of (Scripts env p1 props remixContext routeModules routerContext memo) =
  deferred_of (Scripts env p2 props remixContext routeModules routerContext memo)
  ∧ ∀ rid dk v,
      Await_children rid dk v =
      match JSON_stringify v with
      | Some t =>
          Ok (script [] None true
                (createHtml (js "__remixContext.r(" ++ JSON_string rid ++ js ", " ++
                             JSON_string dk ++ js ", " ++ escapeHtml t ++ js ");")))
      | None => Throw TypeError
      end.
Proof.
  split.
  - destruct remixContext as [remix|], routeModules as [router|],
      routerContext as [state|]; try done.
    destruct memo as [initial|].
    + unfold Scripts, useMemo_once, mret. cbn [rbind].
      destruct (nextMatches router env) as [next|]; [|done]. cbn [rbind].
      destruct (rmap _ _) as [routePreloads|]; [|done].
      cbn [rbind deferred_of output]. by rewrite !fragment_deferred.
    + rewrite !Scripts_first_render.
      destruct (contextScript env remix (staticContext router) [])
        as [[ctx pushed]|]; [|done].
      cbn [rbind].
      pose proof (routeModulesScript_outcome (static router) (manifest remix)
                    p1 p2 (matches state)) as H.
      destruct (routeModulesScript _ _ p1 _) as [m1|e1],
               (routeModulesScript _ _ p2 _) as [m2|e2]; try done.
      * cbn [rbind].
        destruct (nextMatches router env) as [next|]; [|done]. cbn [rbind].
        destruct (rmap _ _) as [routePreloads|]; [|done].
        cbn [rbind deferred_of output]. rewrite !fragment_deferred.
        destruct (isHydrated env); [done|].
        by rewrite !(deferred_elements_none [_; _]) by (by repeat constructor).
      * cbn in H. by subst.
  - intros rid dk v. unfold Await_children, escapeHtml_json.
    by destruct (JSON_stringify v).
Qed.

(** C7, as stated, fails: the script streamed for a key that resolved
    with the URL [/build/a.js] holds that URL, not the prefixed one. *)
Lemma deferred_script_url_not_prefixed :
  ¬ (∀ prefix rid dk u,
       prefix ≠ [] →
       Await_children rid dk (VString u) =
       Ok (script [] None true
             (createHtml (js "__remixContext.r(" ++ JSON_string rid ++ js ", " ++
                          JSON_string dk ++ js ", " ++
                          escapeHtml (JSON_string (prefix ++ u)) ++ js ");")))).
Proof.
  intros H.
  specialize (H Examples.cdn (js "root") (js "c") (js "/build/a.js")).
  assert (Hp : Examples.cdn ≠ []) by (vm_compute; discriminate).
  specialize (H Hp). vm_compute in H. discriminate.
Qed.

(** ** The prefix and the manifest's URLs *)

Lemma addPrefix_Some (u p : list N) : p ≠ [] → addPrefix u (Some p) = p ++ u.
Proof. by destruct p. Qed.

Lemma rmap_ext {A B} (f g : A → result B) (l : list A) :
  (∀ x, f x = g x) → rmap f l = rmap g l.
Proof. intros H. induction l as [|x l IH]; [done|]. cbn. by rewrite H, IH. Qed.

Lemma rmap_fmap {A B C} (f : A → result B) (h : B → C) (l : list A) :
  rmap (λ x, rbind (f x) (λ y, Ok (h y))) l =
  rbind (rmap f l) (λ ys, Ok (map h ys)).
Proof.
  induction l as [|x l IH]; [done|]. cbn [rmap]. rewrite IH.
  destruct (f x); [|done]. cbn [rbind]. by destruct (rmap f l).
Qed.

Lemma route_of_prefix_assets p manifest m :
  route_of (prefix_assets p manifest) m =
  rbind (route_of manifest m) (λ r, Ok (prefix_route p r)).
Proof.
  unfold route_of. cbn [routes prefix_assets]. rewrite lookup_fmap.
  by destruct (routes manifest !! route_id m).
Qed.

Lemma dedupe_from_map (p : list N) (seen l : list (list N)) :
  dedupe_from (map (app p) seen) (map (app p) l) =
  map (app p) (dedupe_from seen l).
Proof.
  revert seen. induction l as [|x l IH]; intros seen; [done|].
  cbn [map dedupe_from].
  assert (Hiff : p ++ x ∈ map (app p) seen ↔ x ∈ seen).
  { rewrite !list_elem_of_In, in_map_iff. split.
    - intros (y & Hy & Hin). apply app_inv_head in Hy. by subst.
    - intros Hin. by exists x. }
  destruct (decide (x ∈ seen)) as [Hx|Hx].
  - rewrite decide_True by (by apply Hiff). apply IH.
  - rewrite decide_False by (by rewrite Hiff). cbn [map]. f_equal.
    apply (IH (x :: seen)).
Qed.

Lemma dedupe_map (p : list N) (l : list (list N)) :
  Scripts.dedupe (map (app p) l) = map (app p) (Scripts.dedupe l).
Proof. apply (dedupe_from_map p [] l). Qed.

Lemma routeModulesScript_prefix isStatic manifest p ms :
  p ≠ [] →
  routeModulesScript isStatic manifest (Some p) ms =
  routeModulesScript isStatic (prefix_assets p manifest) None ms.
Proof.
  intros Hp. unfold routeModulesScript. destruct (negb isStatic); [done|].
  rewrite !addPrefix_Some by done.
  rewrite (rmap_ext (import_statement manifest (Some p))
             (import_statement (prefix_assets p manifest) None)); [done|].
  intros im. unfold import_statement. rewrite route_of_prefix_assets.
  destruct (route_of manifest im.2); [|done]. cbn [rbind].
  by rewrite addPrefix_Some.
Qed.

Lemma route_preloads_prefix p manifest (l : list RouteMatch) :
  rmap (route_preloads (prefix_assets p manifest)) l =
  rbind (rmap (route_preloads manifest) l) (λ ys, Ok (map (map (app p)) ys)).
Proof.
  rewrite <- rmap_fmap. apply rmap_ext. intros m.
  unfold route_preloads. rewrite route_of_prefix_assets.
  destruct (route_of manifest m) as [r|]; [|done]. cbn [rbind]. f_equal.
  rewrite map_app. cbn [prefix_route imports module map].
  by destruct (imports r).
Qed.

Lemma fragment_prefix env p props manifest preloads initial deferredScripts :
  p ≠ [] →
  fragment env (Some p) props manifest preloads initial deferredScripts =
  fragment env None props (prefix_assets p manifest) (map (app p) preloads)
    initial deferredScripts.
Proof.
  intros Hp. unfold fragment. cbn [url entry entry_module prefix_assets].
  rewrite dedupe_map, map_map.
  rewrite (addPrefix_Some (url manifest)),
    (addPrefix_Some (entry_module (entry manifest))) by done.
  change (addPrefix (p ++ url manifest) None) with (p ++ url manifest).
  change (addPrefix (p ++ entry_module (entry manifest)) None)
    with (p ++ entry_module (entry manifest)).
  f_equal. f_equal. apply map_ext. intros u.
  by rewrite addPrefix_Some.
Qed.

Lemma Scripts_prefix env p props remix router state memo :
  p ≠ [] →
  Scripts env (Some p) props (Some remix) (Some router) (Some state) memo =
  Scripts env None props
    (Some (with_manifest remix (prefix_assets p (manifest remix))))
    (Some router) (Some state) memo.
Proof.
  intros Hp. unfold Scripts.
  assert (Hinit : useMemo_once memo
                    (initialScripts env (Some p) props remix router state) [] =
                  useMemo_once memo
                    (initialScripts env None props
                       (with_manifest remix (prefix_assets p (manifest remix)))
                       router state) []).
  { destruct memo; [done|]. unfold useMemo_once, initialScripts, mbind.
    change (contextScript env (with_manifest remix _) (staticContext router))
      with (contextScript env remix (staticContext router)).
    destruct (contextScript env remix (staticContext router) []) as [[ctx ds]|];
      [|done].
    unfold with_manifest. cbn [manifest].
    rewrite routeModulesScript_prefix by done. reflexivity. }
  rewrite Hinit.
  generalize (useMemo_once memo
                (initialScripts env None props
                   (with_manifest remix (prefix_assets p (manifest remix)))
                   router state) []).
  intros [[initial pushed]|]; [|done].
  cbn [rbind]. destruct (nextMatches router env) as [next|]; [|done].
  unfold with_manifest. cbn [rbind manifest]. rewrite route_preloads_prefix.
  destruct (rmap (route_preloads (manifest remix)) _) as [rp|]; [|done].
  cbn [rbind]. do 2 f_equal. rewrite fragment_prefix by done. f_equal.
  destruct (isHydrated env); [done|].
  cbn [entry entry_imports prefix_assets]. rewrite map_app. f_equal.
  induction rp as [|x rp IH]; [done|]. cbn [concat map]. by rewrite map_app, IH.
Qed.

Lemma preload_hrefs_app (l1 l2 : list element) :
  preload_hrefs (l1 ++ l2) = preload_hrefs l1 ++ preload_hrefs l2.
Proof. apply omap_app. Qed.

Lemma preload_hrefs_links (f : list N → list N) (c : jsval) (l : list (list N)) :
  preload_hrefs (map (λ path, link_modulepreload (f path) c) l) = map f l.
Proof. induction l as [|x l IH]; [done|]. cbn. f_equal. apply IH. Qed.

Lemma preload_hrefs_none (l : list element) :
  Forall (λ e, is_script e = true ∨ is_deferred e = true) l → preload_hrefs l = [].
Proof.
  induction 1 as [|e l He _ IH]; [done|].
  destruct e; cbn; try done. by destruct He.
Qed.

Lemma contextScript_pushed env remix sc ctx pushed :
  contextScript env remix sc [] = Ok (ctx, pushed) →
  Forall (λ e, is_deferred e = true) pushed.
Proof.
  destruct sc as [sc|]; [|cbn; unfold mret; intros; simplify_eq; constructor].
  destruct (activeDeferreds sc) as [deferreds|] eqn:Hsc.
  - intros H.
    pose proof (contextScript_returned env remix sc deferreds _ Hsc H) as Hr.
    rewrite (contextScript_ready env remix sc deferreds Hsc Hr) in H.
    simplify_eq. apply pending_elements_deferred.
  - unfold contextScript.
    change (Some sc ≫= activeDeferreds) with (activeDeferreds sc). rewrite Hsc.
    unfold mret. intros; simplify_eq. constructor.
Qed.

(** The links of a render, for any prefix. *)
Lemma Scripts_hrefs env prefix props remix router state memo r :
  holds_scripts memo →
  Scripts env prefix props (Some remix) (Some router) (Some state) memo = Ok r →
  ∃ next routePreloads,
    nextMatches router env = Ok next
    ∧ rmap (route_preloads (manifest remix)) (matches state ++ next) =
      Ok routePreloads
    ∧ preload_hrefs (output r) =
      map (λ u, addPrefix u prefix)
        (url (manifest remix) :: entry_module (entry (manifest remix)) ::
         Scripts.dedupe
           (if isHydrated env then []
            else entry_imports (entry (manifest remix)) ++ concat routePreloads)).
Proof.
  intros Hmemo H. unfold Scripts in H.
  destruct (useMemo_once memo _ []) as [[initial pushed]|] eqn:Einit; [|done].
  cbn [rbind] in H.
  destruct (nextMatches router env) as [next|] eqn:En; [|done].
  cbn [rbind] in H.
  destruct (rmap _ _) as [rp|] eqn:Erp; [|done]. cbn [rbind] in H.
  injection H as <-.
  exists next, rp. split; [done|]. split; [done|]. cbn [output].
  assert (Hrest : preload_hrefs initial = [] ∧
                  preload_hrefs (pushed ++ client_placeholders router env) = []).
  { destruct memo as [kept|].
    - cbn in Einit. unfold mret in Einit. simplify_eq. split.
      + apply preload_hrefs_none. eapply Forall_impl; [exact Hmemo|]. by left.
      + apply preload_hrefs_none.
        eapply Forall_impl; [apply client_placeholders_deferred|]. by right.
    - cbn [useMemo_once] in Einit. unfold initialScripts, mbind in Einit.
      destruct (contextScript env remix (staticContext router) [])
        as [[ctx ds]|] eqn:Ectx; [|done].
      unfold mlift in Einit.
      destruct (routeModulesScript _ _ _ _) as [mods|]; [|done].
      unfold mret in Einit. simplify_eq. split; [done|].
      apply preload_hrefs_none, Forall_app. split.
      + eapply Forall_impl; [by eapply contextScript_pushed|]. by right.
      + eapply Forall_impl; [apply client_placeholders_deferred|]. by right. }
  destruct Hrest as [Hi Hp]. unfold fragment.
  rewrite !preload_hrefs_app, preload_hrefs_links.
  assert (Htail : ∀ l, preload_hrefs l = [] →
                       preload_hrefs (if isHydrated env then [] else l) = []).
  { intros l Hl. by destruct (isHydrated env). }
  rewrite (Htail _ Hi), (Htail _ Hp), !app_nil_r. done.
Qed.

Lemma import_statements_text manifest prefix (ms : list RouteMatch)
    (rs : list EntryRoute) :
  Forall2 (λ m r, routes manifest !! route_id m = Some r) ms rs →
  ∀ g : nat → nat,
    rmap (import_statement manifest prefix) (imap (λ i m, (g i, m)) ms) =
    Ok (imap (λ i r, js "import * as route" ++ js (pretty (g i)) ++ js " from " ++
                     JSON_string (addPrefix (module r) prefix) ++ js ";") rs).
Proof.
  induction 1 as [|m r ms rs Hm _ IH]; intros g; [done|].
  cbn [imap rmap]. unfold import_statement at 1, route_of. cbn [fst snd].
  rewrite Hm. cbn [rbind].
  unfold compose. rewrite (IH (λ j, g (S j))). reflexivity.
Qed.

Lemma module_bindings_text (ms : list RouteMatch) (g : nat → nat) :
  map module_binding (imap (λ i m, (g i, m)) ms) =
  imap (λ i m, JSON_string (route_id m) ++ js ":route" ++ js (pretty (g i))) ms.
Proof.
  revert g. induction ms as [|m ms IH]; intros g; [done|].
  cbn [imap map]. f_equal. apply (IH (λ j, g (S j))).
Qed.

Lemma routeModulesScript_text manifest prefix ms rs :
  Forall2 (λ m r, routes manifest !! route_id m = Some r) ms rs →
  routeModulesScript true manifest prefix ms =
  Ok (module_script_text (λ u, addPrefix u prefix) manifest ms rs).
Proof.
  intros H. unfold routeModulesScript, indexed. cbn [negb].
  rewrite (import_statements_text manifest prefix ms rs H (λ i, i)).
  cbn [rbind]. rewrite (module_bindings_text ms (λ i, i)).
  unfold module_script_text, hmr_import. do 2 f_equal.
  destruct (hmr manifest) as [h|]; [|done]. by destruct (runtime h).
Qed.

Lemma route_preloads_text manifest (l : list RouteMatch) (rs : list EntryRoute) :
  Forall2 (λ m r, routes manifest !! route_id m = Some r) l rs →
  rmap (route_preloads manifest) l =
  Ok (map (λ r, default [] (imports r) ++ [module r]) rs).
Proof.
  induction 1 as [|m r l rs Hm _ IH]; [done|].
  cbn [rmap map]. unfold route_preloads at 1, route_of. rewrite Hm.
  cbn [rbind]. by rewrite IH.
Qed.

(** C1 (amended).  With a non-empty prefix, [Scripts] renders what it
    renders with no prefix from the manifest whose URL, entry module and
    imports, and route modules and imports each are the prefix followed by
    the original.  The module script it generates is, written out
    ([module_script_text]): the import of the HMR runtime URL of a
    development manifest as the manifest gives it, then the imports of the
    prefix followed by the manifest URL, of the prefix followed by each
    matched route's module URL, and of the prefix followed by the entry
    module URL; with no prefix, the same with the URLs as they are.  The
    [href]s of the [modulepreload] links are the prefix followed by the
    manifest URL, the entry module and each preload path (the entry
    imports, then each route's imports and module, without duplicates);
    with no prefix, those URLs as they are. *)
Theorem Scripts_prefixes_manifest_urls env p props remix router state memo :
  p ≠ [] → holds_scripts memo →
  Scripts env (Some p) props (Some remix) (Some router) (Some state) memo =
  Scripts env None props
    (Some (with_manifest remix (prefix_assets p (manifest remix))))
    (Some router) (Some state) memo
  ∧ routeModulesScript (static router) (manifest remix) (Some p) (matches state) =
    routeModulesScript (static router) (prefix_assets p (manifest remix)) None
      (matches state)
  ∧ (∀ r, Scripts env (Some p) props (Some remix) (Some router) (Some state) memo
          = Ok r →
       ∃ next routePreloads,
         nextMatches router env = Ok next
         ∧ rmap (route_preloads (manifest remix)) (matches state ++ next) =
           Ok routePreloads
         ∧ preload_hrefs (output r) =
           map (app p)
             (url (manifest remix) :: entry_module (entry (manifest remix)) ::
              Scripts.dedupe
                (if isHydrated env then []
                 else entry_imports (entry (manifest remix)) ++
                      concat routePreloads)))
  ∧ (∀ r, Scripts env None props (Some remix) (Some router) (Some state) memo
          = Ok r →
       ∃ next routePreloads,
         nextMatches router env = Ok next
         ∧ rmap (route_preloads (manifest remix)) (matches state ++ next) =
           Ok routePreloads
         ∧ preload_hrefs (output r) =
           url (manifest remix) :: entry_module (entry (manifest remix)) ::
           Scripts.dedupe
             (if isHydrated env then []
              else entry_imports (entry (manifest remix)) ++
                   concat routePreloads))
  ∧ (∀ rs,
       Forall2 (λ m r, routes (manifest remix) !! route_id m = Some r)
         (matches state) rs →
       routeModulesScript true (manifest remix) (Some p) (matches state) =
       Ok (module_script_text (app p) (manifest remix) (matches state) rs)
       ∧ routeModulesScript true (manifest remix) None (matches state) =
         Ok (module_script_text (λ u, u) (manifest remix) (matches state) rs))
  ∧ (∀ r rs,
       static router = true →
       Forall2 (λ m r, routes (manifest remix) !! route_id m = Some r)
         (matches state) rs →
       Scripts env (Some p) props (Some remix) (Some router) (Some state) None =
       Ok r →
       ∃ ctx,
         kept r =
         [ script props None false (createHtml ctx);
           script props (Some (js "module")) true
             (createHtml
                (module_script_text (app p) (manifest remix) (matches state) rs)) ]
         ∧ (isHydrated env = false →
            script props (Some (js "module")) true
              (createHtml
                 (module_script_text (app p) (manifest remix) (matches state) rs))
            ∈ output r))
  ∧ (∀ r next rs,
       nextMatches router env = Ok next →
       Forall2 (λ m r, routes (manifest remix) !! route_id m = Some r)
         (matches state ++ next) rs →
       Scripts env (Some p) props (Some remix) (Some router) (Some state) memo =
       Ok r →
       preload_hrefs (output r) =
       map (app p)
         (url (manifest remix) :: entry_module (entry (manifest remix)) ::
          Scripts.dedupe
            (if isHydrated env then []
             else entry_imports (entry (manifest remix)) ++
                  concat (map (λ r, default [] (imports r) ++ [module r]) rs)))).
Proof.
  intros Hp Hmemo. split; [by apply Scripts_prefix|].
  split; [by apply routeModulesScript_prefix|].
  split; [|split; [|split; [|split]]].
  - intros r Hr.
    destruct (Scripts_hrefs _ _ _ _ _ _ _ _ Hmemo Hr) as (next & rp & H1 & H2 & H3).
    exists next, rp. split; [done|]. split; [done|]. rewrite H3.
    apply map_ext. intros u. by apply addPrefix_Some.
  - intros r Hr.
    destruct (Scripts_hrefs _ _ _ _ _ _ _ _ Hmemo Hr) as (next & rp & H1 & H2 & H3).
    exists next, rp. split; [done|]. split; [done|]. rewrite H3.
    cbn [addPrefix]. apply map_id.
  - intros rs Hrs. rewrite !(routeModulesScript_text _ _ _ rs Hrs).
    destruct p as [|c p]; [done|]. split; reflexivity.
  - intros r rs Hst Hrs Hr. rewrite Scripts_first_render in Hr.
    destruct (contextScript env remix (staticContext router) [])
      as [[ctx pushed]|]; [|done].
    rewrite Hst, (routeModulesScript_text _ _ _ rs Hrs) in Hr.
    render_steps Hr. exists ctx.
    destruct p as [|c p]; [done|]. split; [reflexivity|].
    intros Hhyd. unfold fragment. rewrite Hhyd.
    do 2 (apply elem_of_app; right). apply elem_of_app; left.
    apply elem_of_cons; right. apply elem_of_cons; left. reflexivity.
  - intros r next rs Hnext Hrs Hr.
    destruct (Scripts_hrefs _ _ _ _ _ _ _ _ Hmemo Hr) as (next' & rp & H1 & H2 & H3).
    rewrite Hnext in H1. injection H1 as <-.
    rewrite (route_preloads_text _ _ rs Hrs) in H2. injection H2 as <-.
    rewrite H3. apply map_ext. intros u. by apply addPrefix_Some.
Qed.

Lemma Scripts_prefixes_manifest_urls_witness :
  ∃ r,
    Scripts Examples.server_env (Some Examples.cdn) [] (Some Examples.remix_dev)
      (Some (Examples.router_server [])) (Some Examples.state0) None = Ok r
    ∧ preload_hrefs (output r) =
      [ js "https://cdn/build/manifest.js"; js "https://cdn/build/entry.js";
        js "https://cdn/build/shared.js"; js "https://cdn/build/root.js" ].
Proof.
  assert (Hp : Examples.cdn ≠ []) by (vm_compute; discriminate).
  destruct (Scripts_prefixes_manifest_urls Examples.server_env Examples.cdn []
              Examples.remix_dev (Examples.router_server []) Examples.state0 None
              Hp I) as (_ & _ & H3 & _).
  destruct (Scripts Examples.server_env (Some Examples.cdn) []
              (Some Examples.remix_dev) (Some (Examples.router_server []))
              (Some Examples.state0) None) as [r|] eqn:E; [|by vm_compute in E].
  exists r. split; [done|].
  destruct (H3 r eq_refl) as (next & rp & Hn & Hrp & Hh).
  vm_compute in Hn. vm_compute in Hrp. simplify_eq. rewrite Hh.
  vm_compute. reflexivity.
Defined.

(** C1, as stated, fails for the HMR runtime, an asset URL of the
    manifest too: the module script imports it as the manifest gives it. *)
Lemma hmr_runtime_not_prefixed :
  routeModulesScript true Examples.manifest_dev (Some Examples.cdn)
    (matches Examples.state0) =
  Ok (js "import " ++ dq ++ js "/build/hmr.js" ++ dq ++ js ";" ++
      js "import " ++ dq ++ js "https://cdn/build/manifest.js" ++ dq ++ js ";" ++ nl ++
      js "import * as route0 from " ++ dq ++ js "https://cdn/build/root.js" ++ dq ++
      js ";" ++ nl ++
      js "window.__remixRouteModules = {" ++ dq ++ js "root" ++ dq ++ js ":route0};" ++
      nl ++ nl ++
      js "import(" ++ dq ++ js "https://cdn/build/entry.js" ++ dq ++ js ");")
  ∧ ¬ (∀ isStatic manifest p ms,
         p ≠ [] →
         routeModulesScript isStatic manifest (Some p) ms =
         routeModulesScript isStatic (prefix_all p manifest) None ms).
Proof.
  split; [vm_compute; reflexivity|].
  intros H.
  assert (Hp : Examples.cdn ≠ []) by (vm_compute; discriminate).
  specialize (H true Examples.manifest_dev Examples.cdn
                (matches Examples.state0) Hp).
  vm_compute in H. discriminate.
Qed.

(** ** Links: the object store *)

Import Links LinksStatements.

Lemma deref_app_l (h ext : list (list (list N * jsval))) (l : nat) :
  (l < length h)%nat → deref (h ++ ext) l = deref h l.
Proof. intros H. unfold deref. by rewrite lookup_app_l. Qed.

Lemma map_deref_app_l (h ext : list (list (list N * jsval))) (ls : list nat) :
  Forall (λ l, (l < length h)%nat) ls → map (deref (h ++ ext)) ls = map (deref h) ls.
Proof.
  induction 1 as [|l ls Hl _ IH]; [done|]. cbn. by rewrite deref_app_l, IH.
Qed.

Lemma map_deref_seq (h ds : list (list (list N * jsval))) :
  map (deref (h ++ ds)) (seq (length h) (length ds)) = ds.
Proof.
  revert h. induction ds as [|d ds IH]; intros h; [done|].
  cbn [length seq map]. f_equal.
  - unfold deref. rewrite lookup_app_r by lia. by rewrite Nat.sub_diag.
  - specialize (IH (h ++ [d])). rewrite length_app, <- app_assoc in IH.
    cbn in IH. by rewrite Nat.add_1_r in IH.
Qed.

Lemma deref_insert (h : list (list (list N * jsval))) (l l' : nat)
    (o : list (list N * jsval)) :
  (l < length h)%nat →
  deref (<[l := o]> h) l' = if decide (l' = l) then o else deref h l'.
Proof.
  intros Hl. unfold deref. destruct (decide (l' = l)) as [->|Hne].
  - by rewrite list_lookup_insert_eq.
  - by rewrite list_lookup_insert_ne.
Qed.

(** [forEach] with an in-place update, over the locations a fresh array
    was given. *)
Lemma foreach_fresh g (h ds : list (list (list N * jsval))) :
  ∃ us, mapM (λ l, modify l g) (seq (length h) (length ds)) (h ++ ds) =
        Ok (us, h ++ map g ds).
Proof.
  revert h. induction ds as [|d ds IH]; intros h.
  - exists []. cbn. unfold mret. by rewrite app_nil_r.
  - cbn [length seq]. rewrite mapM_cons. unfold modify at 1.
    assert (Hd : deref (h ++ d :: ds) (length h) = d).
    { unfold deref. rewrite lookup_app_r by lia. by rewrite Nat.sub_diag. }
    rewrite Hd.
    assert (Hi : <[length h := g d]> (h ++ d :: ds) = (h ++ [g d]) ++ ds).
    { rewrite insert_app_r_alt by lia. rewrite Nat.sub_diag.
      by rewrite <- app_assoc. }
    rewrite Hi. destruct (IH (h ++ [g d])) as [us Hus].
    rewrite length_app, Nat.add_1_r in Hus. rewrite Hus.
    exists (tt :: us). by rewrite <- app_assoc.
Qed.

(** [forEach] with an in-place update, over distinct locations: each
    object is updated once, every other object is left alone. *)
Lemma foreach_distinct g (ls : list nat) (h : list (list (list N * jsval))) :
  NoDup ls → Forall (λ l, (l < length h)%nat) ls →
  ∃ us h',
    mapM (λ l, modify l g) ls h = Ok (us, h')
    ∧ length h' = length h
    ∧ ∀ l, deref h' l = if decide (l ∈ ls) then g (deref h l) else deref h l.
Proof.
  intros Hnd. revert h. induction Hnd as [|l ls Hl Hnd IH]; intros h Hb.
  - exists [], h. split; [done|]. split; [done|]. intros l.
    rewrite decide_False; [done|]. apply not_elem_of_nil.
  - apply Forall_cons in Hb as [Hlb Hb]. rewrite mapM_cons. unfold modify at 1.
    destruct (IH (<[l := g (deref h l)]> h)) as (us & h' & Hrun & Hlen & Hget).
    { by rewrite length_insert. }
    rewrite Hrun. exists (tt :: us), h'. split; [done|].
    split; [by rewrite Hlen, length_insert|].
    intros l'. rewrite Hget, (deref_insert h l l') by done.
    destruct (decide (l' = l)) as [->|Hne].
    + rewrite decide_False by done. rewrite decide_True; [done|]. by left.
    + destruct (decide (l' ∈ ls)) as [Hin|Hout].
      * rewrite decide_True; [done|]. by right.
      * rewrite decide_False; [done|]. rewrite elem_of_cons. tauto.
Qed.

(** ** Links: collecting the descriptors *)

(** A module whose [links] builds its array anew: the first call's
    objects take the prefix and are dropped, the second call's objects are
    the ones returned, as the module wrote them. *)
Lemma links_of_match_fresh rms prefix m md ds
    (h : list (list (list N * jsval))) :
  rms !! route_id m = Some md → module_descriptors md ds →
  ∃ junk,
    length junk = length ds
    ∧ links_of_match (Some rms) prefix m h =
      Ok (seq (length h + length ds) (length ds), h ++ junk ++ ds).
Proof.
  intros Hmd Hds. unfold links_of_match. rewrite Hmd.
  unfold module_descriptors in Hds. unfold call_links.
  destruct (links md) as [f|].
  - exists (map (prefix_stylesheet prefix) ds). split; [by rewrite length_map|].
    unfold mbind. rewrite (Hds h).
    destruct (foreach_fresh (prefix_stylesheet prefix) h ds) as [us Hus].
    rewrite Hus, (Hds (h ++ map (prefix_stylesheet prefix) ds)).
    by rewrite length_app, length_map, <- app_assoc.
  - subst ds. exists []. split; [done|]. unfold mbind, mret. cbn [mapM].
    unfold mret. cbn. by rewrite app_nil_r.
Qed.

Lemma links_of_matches_fresh rms prefix ms dss :
  matched_descriptors rms ms dss →
  ∀ h : list (list (list N * jsval)),
  ∃ lss ext,
    mapM (links_of_match (Some rms) prefix) ms h = Ok (lss, h ++ ext)
    ∧ map (deref (h ++ ext)) (concat lss) = concat dss
    ∧ Forall (λ l, (l < length (h ++ ext))%nat) (concat lss).
Proof.
  induction 1 as [|m ds ms dss (md & Hmd & Hds) _ IH]; intros h.
  - exists [], []. cbn. unfold mret. by rewrite app_nil_r.
  - destruct (links_of_match_fresh rms prefix m md ds h Hmd Hds)
      as (junk & Hjunk & Hrun).
    destruct (IH (h ++ junk ++ ds)) as (lss & ext & Hrest & Hvals & Hbound).
    exists (seq (length h + length ds) (length ds) :: lss), ((junk ++ ds) ++ ext).
    rewrite mapM_cons, Hrun, Hrest.
    assert (Hh : h ++ (junk ++ ds) ++ ext = (h ++ junk ++ ds) ++ ext)
      by (by rewrite !app_assoc).
    rewrite Hh. split; [done|].
    assert (Hseq : Forall (λ l, (l < length (h ++ junk ++ ds))%nat)
                     (seq (length h + length ds) (length ds))).
    { apply Forall_forall. intros l Hl. apply elem_of_seq in Hl.
      rewrite !length_app. lia. }
    cbn [concat]. split.
    + rewrite map_app, Hvals. f_equal.
      rewrite map_deref_app_l by done.
      rewrite (app_assoc h junk ds).
      replace (length h + length ds)%nat with (length (h ++ junk))
        by (rewrite length_app; lia).
      apply map_deref_seq.
    + apply Forall_app. split; [|done].
      eapply Forall_impl; [exact Hseq|]. intros l Hl. cbn beta in *.
      rewrite length_app. lia.
Qed.

(** ** Links: dedupe *)

Lemma dedupe_by_read {A} (read : A → list (list N * jsval)) preloads seen
    (l : list A) :
  map read (dedupe_by read preloads seen l) =
  dedupe_by (λ o, o) preloads seen (map read l).
Proof.
  revert seen. induction l as [|d l IH]; intros seen; [done|].
  cbn [map dedupe_by].
  destruct (alreadyModulePreload preloads (read d)); [apply IH|].
  destruct (decide (descriptor_key (read d) ∈ seen)); [apply IH|].
  cbn [map]. f_equal. apply IH.
Qed.

Lemma dedupe_by_subset {A} (read : A → list (list N * jsval)) preloads seen
    (l : list A) (x : A) :
  x ∈ dedupe_by read preloads seen l → x ∈ l.
Proof.
  revert seen. induction l as [|d l IH]; intros seen; [done|].
  cbn [dedupe_by].
  destruct (alreadyModulePreload preloads (read d)).
  { intros H. right. by eapply IH. }
  destruct (decide (descriptor_key (read d) ∈ seen)).
  { intros H. right. by eapply IH. }
  rewrite !elem_of_cons. intros [->|H]; [by left|]. right. by eapply IH.
Qed.

(** What [dedupe] keeps has keys that are new and pairwise distinct. *)
Lemma dedupe_by_keys {A} (read : A → list (list N * jsval)) preloads seen
    (l : list A) :
  NoDup (map (λ x, descriptor_key (read x)) (dedupe_by read preloads seen l))
  ∧ ∀ x, x ∈ dedupe_by read preloads seen l → descriptor_key (read x) ∉ seen.
Proof.
  revert seen. induction l as [|d l IH]; intros seen.
  - split; [constructor|]. intros x Hx. by apply elem_of_nil in Hx.
  - cbn [dedupe_by].
    destruct (alreadyModulePreload preloads (read d)); [apply IH|].
    destruct (decide (descriptor_key (read d) ∈ seen)) as [Hin|Hout]; [apply IH|].
    destruct (IH (descriptor_key (read d) :: seen)) as [Hnd Hnew].
    split.
    + cbn [map]. apply NoDup_cons. split; [|done].
      intros Hk. apply list_elem_of_In, in_map_iff in Hk as (y & Hy & Hyin).
      apply list_elem_of_In in Hyin. apply (Hnew y Hyin). rewrite Hy. by left.
    + intros x Hx. apply elem_of_cons in Hx as [->|Hx]; [done|].
      intros Hs. apply (Hnew x Hx). by right.
Qed.

Lemma dedupe_by_NoDup {A} (read : A → list (list N * jsval)) preloads
    (l : list A) :
  NoDup (dedupe_by read preloads [] l).
Proof.
  destruct (dedupe_by_keys read preloads [] l) as [Hnd _].
  by apply (NoDup_fmap_1 (λ x, descriptor_key (read x))).
Qed.

(** ** Links: rendering *)

Lemma render_link_run useId (l : nat) (h : list (list (list N * jsval))) :
  (l < length h)%nat →
  ∃ h',
    render_link useId l h = Ok (emitted useId (deref h l), h')
    ∧ length h' = length h
    ∧ ∀ l', l' ≠ l → deref h' l' = deref h l'.
Proof.
  intros Hl. unfold render_link, emitted.
  destruct (isPageLinkDescriptor (deref h l)).
  - by exists h.
  - exists (<[l := normalize useId (deref h l)]> h).
    unfold mbind, modify. rewrite deref_insert, decide_True by done.
    split; [done|]. split; [by rewrite length_insert|].
    intros l' Hne. by rewrite deref_insert, decide_False by done.
Qed.

Lemma render_links_distinct useId (ls : list nat)
    (h : list (list (list N * jsval))) :
  NoDup ls → Forall (λ l, (l < length h)%nat) ls →
  ∃ h',
    mapM (render_link useId) ls h =
    Ok (map (λ l, emitted useId (deref h l)) ls, h')
    ∧ length h' = length h
    ∧ ∀ l', l' ∉ ls → deref h' l' = deref h l'.
Proof.
  intros Hnd. revert h. induction Hnd as [|l ls Hl Hnd IH]; intros h Hb.
  - by exists h.
  - apply Forall_cons in Hb as [Hlb Hb].
    destruct (render_link_run useId l h Hlb) as (h1 & Hrun & Hlen & Hframe).
    destruct (IH h1) as (h' & Hrest & Hlen' & Hframe').
    { by rewrite Hlen. }
    exists h'. rewrite mapM_cons, Hrun, Hrest. split; [|split].
    + cbn [map]. do 3 f_equal. apply map_ext_in. intros l' Hin.
      rewrite Hframe; [done|]. intros ->. by apply Hl, list_elem_of_In.
    + by rewrite Hlen'.
    + intros l' Hout. apply not_elem_of_cons in Hout as [Hne Hout].
      by rewrite Hframe', Hframe.
Qed.

(** A render that computes the links anew, from modules whose [links]
    build their arrays anew. *)
Lemma Links_fresh_run useId prefix remix state dss preloads
    (h : list (list (list N * jsval))) :
  matched_descriptors (routeModules remix) (matches state) dss →
  getCurrentPageModulePreloadHrefs (matches state) (Some (manifest remix)) =
  Ok preloads →
  ∃ ls h',
    Links useId prefix (Some remix) (Some state) None h =
    Ok ((map (λ d, emitted useId (parseLink prefix d))
           (kept_descriptors preloads (concat dss)), ls), h').
Proof.
  intros Hm Hp.
  destruct (links_of_matches_fresh (routeModules remix) (default [] prefix)
              (matches state) dss Hm h) as (lss & ext & Hrun & Hvals & Hbound).
  set (hh := h ++ ext) in *.
  set (D := dedupe_by (deref hh) preloads [] (concat lss)).
  assert (HD : NoDup D) by apply dedupe_by_NoDup.
  assert (HDb : Forall (λ l, (l < length hh)%nat) D).
  { apply Forall_forall. intros l Hl. apply dedupe_by_subset in Hl.
    rewrite Forall_forall in Hbound. by apply Hbound. }
  destruct (foreach_distinct (parseLink prefix) D hh HD HDb)
    as (us & h2 & Hparse & Hlen2 & Hget2).
  destruct (render_links_distinct useId D h2 HD) as (h3 & Hrender & _ & _).
  { by rewrite Hlen2. }
  exists D, h3. unfold Links, getLinksForMatches. cbn [fmap option_fmap option_map].
  unfold mbind at 1 2. rewrite Hrun. unfold mbind at 1, mlift. rewrite Hp.
  unfold dedupe. fold D. unfold mbind at 1. rewrite Hparse.
  unfold mbind, mret. rewrite Hrender. do 3 f_equal.
  unfold kept_descriptors. rewrite <- Hvals, <- dedupe_by_read. fold D.
  rewrite map_map. apply map_ext_in. intros l Hl. rewrite Hget2.
  rewrite decide_True; [done|]. by apply list_elem_of_In.
Qed.

(** ** Links: one descriptor *)

Lemma get_set_eq (k : list N) (v : jsval) (o : list (list N * jsval)) :
  get k (set k v o) = v.
Proof.
  induction o as [|[k' v'] o IH]; cbn.
  - by rewrite decide_True.
  - destruct (decide (k = k')) as [->|Hne]; cbn.
    + by rewrite decide_True.
    + by rewrite decide_False.
Qed.

Lemma get_set_ne (k k' : list N) (v : jsval) (o : list (list N * jsval)) :
  k ≠ k' → get k (set k' v o) = get k o.
Proof.
  intros Hne. induction o as [|[k2 v2] o IH]; cbn.
  - by rewrite decide_False.
  - destruct (decide (k' = k2)) as [->|Hne2]; cbn.
    + by rewrite !decide_False.
    + destruct (decide (k = k2)); [done|apply IH].
Qed.

Lemma get_del_ne (k k' : list N) (o : list (list N * jsval)) :
  k ≠ k' → get k (del k' o) = get k o.
Proof.
  intros Hne. induction o as [|[k2 v2] o IH]; cbn; [done|].
  destruct (decide (k' = k2)) as [->|Hne2]; cbn.
  - by rewrite decide_False.
  - destruct (decide (k = k2)); [done|apply IH].
Qed.

Lemma get_rename_prop_ne (k a b : list N) (o : list (list N * jsval)) :
  k ≠ a → k ≠ b → get k (rename_prop a b o) = get k o.
Proof.
  intros Ha Hb. unfold rename_prop. destruct (truthy (get a o)); [|done].
  by rewrite get_del_ne, get_set_ne.
Qed.

(** The attribute normalisation leaves [href], [rel] and [page] alone. *)
Lemma get_normalize (useId : bool) (k : list N) (o : list (list N * jsval)) :
  k ∈ [js "href"; js "rel"; js "page"] →
  get k (normalize useId o) = get k o.
Proof.
  intros Hk. unfold normalize.
  destruct useId; rewrite !get_rename_prop_ne; try done;
    intros ->; apply (bool_decide_pack _) in Hk; by vm_compute in Hk.
Qed.

Lemma js_href_not_page : js "href" ≠ js "page".
Proof. intros H. by vm_compute in H. Qed.

(** A stylesheet descriptor is rendered with the prefix before its
    [href]. *)
Lemma stylesheet_rendered useId (p : list N) (d : list (list N * jsval)) :
  p ≠ [] →
  isPageLinkDescriptor d = false →
  get (js "rel") d = VString (js "stylesheet") →
  ∃ o, emitted useId (parseLink (Some p) d) = link o
       ∧ get (js "href") o = VString (p ++ to_string (get (js "href") d)).
Proof.
  intros Hp Hpage Hrel. unfold parseLink. rewrite Hpage, Hrel. cbn [negb].
  unfold is_string. rewrite bool_decide_eq_true_2 by done.
  destruct p as [|c p]; [done|]. cbn [truthy_str default].
  set (o := set (js "href") _ d).
  assert (Ho : isPageLinkDescriptor o = false).
  { unfold isPageLinkDescriptor, o in *.
    rewrite get_set_ne; [done|]. intros H. symmetry in H.
    by apply js_href_not_page in H. }
  exists (normalize useId o). unfold emitted. rewrite Ho. split; [done|].
  rewrite get_normalize by (by left). unfold o. by rewrite get_set_eq.
Qed.

(** A page descriptor with a non-empty page is rendered with the prefix
    before its page; an empty page is left as it is. *)
Lemma page_rendered useId (p pg : list N) (d : list (list N * jsval)) :
  p ≠ [] →
  get (js "page") d = VString pg →
  ∃ o, emitted useId (parseLink (Some p) d) = PrefetchPageLinks o
       ∧ get (js "page") o = VString (if decide (pg = []) then [] else p ++ pg).
Proof.
  intros Hp Hpg.
  assert (Hpage : isPageLinkDescriptor d = true).
  { unfold isPageLinkDescriptor. by rewrite Hpg. }
  unfold parseLink. rewrite Hpage, Hpg. cbn [negb].
  destruct pg as [|c pg].
  - cbn [truthy]. exists d. unfold emitted. rewrite Hpage. by rewrite Hpg.
  - cbn [truthy]. destruct p as [|c' p]; [done|]. cbn [truthy_str default to_string].
    set (o := set (js "page") _ d). exists o.
    assert (Ho : get (js "page") o = VString ((c' :: p) ++ c :: pg)).
    { unfold o. by rewrite get_set_eq. }
    unfold emitted, isPageLinkDescriptor. rewrite Ho. split; [done|].
    by rewrite decide_False.
Qed.

(** Every descriptor [dedupe] is given and does not drop as a module
    preload is kept, itself or an earlier one with the same key. *)
Lemma dedupe_by_complete {A} (read : A → list (list N * jsval)) preloads seen
    (l : list A) (x : A) :
  x ∈ l → alreadyModulePreload preloads (read x) = false →
  descriptor_key (read x) ∈ seen
  ∨ ∃ y, y ∈ dedupe_by read preloads seen l
         ∧ descriptor_key (read y) = descriptor_key (read x).
Proof.
  revert seen. induction l as [|d l IH]; intros seen Hx Hpre.
  { by apply elem_of_nil in Hx. }
  cbn [dedupe_by]. apply elem_of_cons in Hx as [->|Hx].
  - rewrite Hpre. destruct (decide (descriptor_key (read d) ∈ seen)); [by left|].
    right. exists d. split; [by left|done].
  - destruct (alreadyModulePreload preloads (read d)); [by apply IH|].
    destruct (decide (descriptor_key (read d) ∈ seen)); [by apply IH|].
    destruct (IH (descriptor_key (read d) :: seen) Hx Hpre) as [Hs|(y & Hy & Hk)].
    + apply elem_of_cons in Hs as [Hs|Hs]; [|by left].
      right. exists d. split; [by left|done].
    + right. exists y. split; [by right|done].
Qed.

Lemma fresh_returns_fresh (ds : list (list (list N * jsval))) :
  returns_fresh (fresh ds) ds.
Proof.
  unfold returns_fresh, fresh. induction ds as [|d ds IH]; intros h.
  - cbn. unfold mret. by rewrite app_nil_r.
  - rewrite mapM_cons. unfold alloc at 1. rewrite IH.
    rewrite length_app, Nat.add_1_r, <- app_assoc. done.
Qed.

(** X18.  On a render of [Links] with a non-empty prefix that
    computes the links anew, from matched route modules whose [links]
    functions create their descriptors on each call: the elements
    rendered are those of the descriptors [dedupe] keeps, in order; every
    descriptor returned and not dropped as a module preload is among them
    (itself or an equal one); a stylesheet descriptor is rendered with
    [href] equal to the prefix followed by its original [href], prefixed
    once; a page descriptor with a non-empty page is rendered with the
    prefix followed by its page, and one with an empty page unchanged. *)
Theorem Links_fresh_render_prefixes useId p remix state dss preloads
    (h : list (list (list N * jsval))) :
  p ≠ [] →
  matched_descriptors (routeModules remix) (matches state) dss →
  getCurrentPageModulePreloadHrefs (matches state) (Some (manifest remix)) =
  Ok preloads →
  (∃ ls h',
     Links useId (Some p) (Some remix) (Some state) None h =
     Ok ((map (λ d, emitted useId (parseLink (Some p) d))
            (kept_descriptors preloads (concat dss)), ls), h'))
  ∧ (∀ d, d ∈ kept_descriptors preloads (concat dss) → d ∈ concat dss)
  ∧ (∀ d, d ∈ concat dss → alreadyModulePreload preloads d = false →
       ∃ d', d' ∈ kept_descriptors preloads (concat dss)
             ∧ descriptor_key d' = descriptor_key d)
  ∧ (∀ d href,
       isPageLinkDescriptor d = false →
       get (js "rel") d = VString (js "stylesheet") →
       get (js "href") d = VString href →
       ∃ o, emitted useId (parseLink (Some p) d) = link o
            ∧ get (js "href") o = VString (p ++ href))
  ∧ (∀ d pg,
       get (js "page") d = VString pg →
       ∃ o, emitted useId (parseLink (Some p) d) = PrefetchPageLinks o
            ∧ get (js "page") o =
              VString (if decide (pg = []) then [] else p ++ pg)).
Proof.
  intros Hp Hm Hpre. split; [by eapply Links_fresh_run|].
  split; [intros d Hd; by eapply dedupe_by_subset|]. split; [|split].
  - intros d Hd Hnot.
    destruct (dedupe_by_complete (λ o, o) preloads [] (concat dss) d Hd Hnot)
      as [Hs|H]; [by apply elem_of_nil in Hs|done].
  - intros d href Hpage Hrel Hhref.
    destruct (stylesheet_rendered useId p d Hp Hpage Hrel) as (o & Ho & Hget).
    exists o. split; [done|]. by rewrite Hget, Hhref.
  - intros d pg Hpg. by apply page_rendered.
Qed.

Lemma Links_fresh_render_prefixes_witness :
  ∃ ls h',
    Links true (Some Examples.cdn)
      (Some (Examples.remix_links
               [Examples.stylesheet_a; Examples.page_x; Examples.page_empty]))
      (Some Examples.state0) None [] =
    Ok (([ link [ (js "rel", VString (js "stylesheet"));
                  (js "href", VString (js "https://cdn/a.css")) ];
           PrefetchPageLinks [ (js "page", VString (js "https://cdn/x")) ];
           PrefetchPageLinks [ (js "page", VString []) ] ], ls), h').
Proof.
  assert (Hp : Examples.cdn ≠ []) by (intros H; by vm_compute in H).
  assert (Hm : matched_descriptors
                 (routeModules
                    (Examples.remix_links
                       [Examples.stylesheet_a; Examples.page_x; Examples.page_empty]))
                 (matches Examples.state0)
                 [[Examples.stylesheet_a; Examples.page_x; Examples.page_empty]]).
  { constructor; [|constructor].
    exists (Examples.root_module
              [Examples.stylesheet_a; Examples.page_x; Examples.page_empty]).
    split; [by vm_compute|]. apply fresh_returns_fresh. }
  destruct (Links_fresh_render_prefixes true Examples.cdn
              (Examples.remix_links
                 [Examples.stylesheet_a; Examples.page_x; Examples.page_empty])
              Examples.state0
              [[Examples.stylesheet_a; Examples.page_x; Examples.page_empty]]
              [js "/build/root.js"; js "/build/shared.js"] [] Hp Hm eq_refl)
    as ((ls & h' & Hrun) & _).
  exists ls, h'. rewrite Hrun. by vm_compute.
Defined.

(** C2.  [Links] does not put the prefix before a stylesheet's [href]
    and a page descriptor's [page] exactly once.  The [forEach] that
    prefixes them runs on every render, outside [useMemo], on the
    descriptor objects [useMemo] holds: a second render with unchanged
    matches, route modules, manifest and prefix finds the descriptors the
    first one updated and puts the prefix before them again
    ([https://cdnhttps://cdn/a.css] for [/a.css]).  Apart from that, a
    page descriptor with the empty page is skipped by the guard on [page]
    and rendered with the empty page, not with the prefix. *)
Lemma Links_rerender_prefixes_again :
  (∃ h',
     render_twice true (Some Examples.cdn)
       (Some (Examples.remix_links [Examples.stylesheet_a; Examples.page_x]))
       (Some Examples.state0) [] =
     Ok (([ link [ (js "rel", VString (js "stylesheet"));
                   (js "href", VString (js "https://cdn/a.css")) ];
            PrefetchPageLinks [ (js "page", VString (js "https://cdn/x")) ] ],
          [ link [ (js "rel", VString (js "stylesheet"));
                   (js "href", VString (js "https://cdnhttps://cdn/a.css")) ];
            PrefetchPageLinks
              [ (js "page", VString (js "https://cdnhttps://cdn/x")) ] ]), h'))
  ∧ (∃ ls h',
       Links true (Some Examples.cdn)
         (Some (Examples.remix_links [Examples.page_empty]))
         (Some Examples.state0) None [] =
       Ok (([ PrefetchPageLinks [ (js "page", VString []) ] ], ls), h'))
  ∧ js "https://cdnhttps://cdn/a.css" ≠ Examples.cdn ++ js "/a.css"
  ∧ [] ≠ Examples.cdn ++ [].
Proof.
  split; [|split; [|split]].
  - eexists. vm_compute. reflexivity.
  - eexists _, _. vm_compute. reflexivity.
  - intros H. by vm_compute in H.
  - intros H. by vm_compute in H.
Qed.

(** * Further properties of the code *)

(** ** Removing duplicates *)

Lemma dedupe_from_spec (seen l : list (list N)) :
  NoDup (dedupe_from seen l)
  ∧ ∀ x, x ∈ dedupe_from seen l ↔ x ∈ l ∧ x ∉ seen.
Proof.
  revert seen. induction l as [|y l IH]; intros seen.
  - split; [constructor|]. intros x. cbn. rewrite elem_of_nil. tauto.
  - cbn [dedupe_from]. destruct (decide (y ∈ seen)) as [Hin|Hout].
    + destruct (IH seen) as [Hnd Hiff]. split; [done|].
      intros x. rewrite Hiff, elem_of_cons. split; [tauto|].
      intros [[->|Hx] Hs]; tauto.
    + destruct (IH (y :: seen)) as [Hnd Hiff]. split.
      * apply NoDup_cons. split; [|done]. rewrite Hiff, elem_of_cons. tauto.
      * intros x. rewrite !elem_of_cons, Hiff, not_elem_of_cons.
        destruct (decide (x = y)) as [->|Hne]; tauto.
Qed.

Lemma dedupe_from_sublist (seen l : list (list N)) :
  dedupe_from seen l `sublist_of` l.
Proof.
  revert seen. induction l as [|y l IH]; intros seen; [constructor|].
  cbn [dedupe_from]. destruct (decide (y ∈ seen)).
  - by apply sublist_cons.
  - by apply sublist_skip.
Qed.

Lemma dedupe_from_fixed (seen l : list (list N)) :
  NoDup l → (∀ x, x ∈ l → x ∉ seen) → dedupe_from seen l = l.
Proof.
  intros Hnd. revert seen. induction Hnd as [|y l Hy Hnd IH]; intros seen Hs;
    [done|].
  cbn [dedupe_from]. rewrite decide_False by (apply Hs; by left). f_equal.
  apply IH. intros x Hx. rewrite not_elem_of_cons. split.
  - intros ->. done.
  - apply Hs. by right.
Qed.

Lemma dedupe_from_filter (s1 s2 l : list (list N)) :
  dedupe_from (s1 ++ s2) l = dedupe_from s1 (filter (λ y, y ∉ s2) l).
Proof.
  revert s1. induction l as [|y l IH]; intros s1; [done|].
  cbn [dedupe_from]. rewrite filter_cons.
  destruct (decide (y ∉ s2)) as [Hout|Hin].
  - cbn [dedupe_from]. destruct (decide (y ∈ s1)) as [H1|H1].
    + rewrite decide_True by (apply elem_of_app; by left). apply IH.
    + rewrite decide_False by (rewrite elem_of_app; tauto). f_equal.
      apply (IH (y :: s1)).
  - rewrite decide_True; [apply IH|].
    apply elem_of_app. right. by destruct (decide (y ∈ s2)).
Qed.

(** X1. [dedupe] of Scripts.tsx and [dedupeHrefs] of Links.tsx, both
    [[...new Set(array)]]: the result has no duplicate, holds exactly the
    strings of the array, in the order of their first occurrences, and an
    array without duplicates is returned as it is. *)
Theorem dedupe_first_occurrences (l : list (list N)) :
  NoDup (Scripts.dedupe l)
  ∧ (∀ x, x ∈ Scripts.dedupe l ↔ x ∈ l)
  ∧ Scripts.dedupe l `sublist_of` l
  ∧ (∀ x, Scripts.dedupe (x :: l) =
          x :: Scripts.dedupe (filter (λ y, y ∉ [x]) l))
  ∧ (NoDup l → Scripts.dedupe l = l)
  ∧ Scripts.dedupe (Scripts.dedupe l) = Scripts.dedupe l
  ∧ dedupeHrefs l = Scripts.dedupe l.
Proof.
  unfold Scripts.dedupe, dedupeHrefs.
  destruct (dedupe_from_spec [] l) as [Hnd Hiff].
  split; [done|]. split.
  { intros x. rewrite Hiff. split; [tauto|]. intros Hx. split; [done|].
    apply not_elem_of_nil. }
  split; [apply dedupe_from_sublist|]. split.
  { intros x. cbn [dedupe_from]. rewrite decide_False by apply not_elem_of_nil.
    f_equal. apply (dedupe_from_filter [] [x] l). }
  split.
  { intros H. apply dedupe_from_fixed; [done|]. intros x _. apply not_elem_of_nil. }
  split; [|done].
  apply dedupe_from_fixed; [done|]. intros x _. apply not_elem_of_nil.
Qed.

(** ** [dedupe] of Links.tsx *)

Lemma dedupe_by_sublist {A} (read : A → list (list N * jsval)) preloads seen
    (l : list A) :
  dedupe_by read preloads seen l `sublist_of` l.
Proof.
  revert seen. induction l as [|d l IH]; intros seen; [constructor|].
  cbn [dedupe_by]. destruct (alreadyModulePreload preloads (read d)).
  { by apply sublist_cons. }
  destruct (decide (descriptor_key (read d) ∈ seen)).
  - by apply sublist_cons.
  - by apply sublist_skip.
Qed.

Lemma dedupe_by_not_preload {A} (read : A → list (list N * jsval)) preloads seen
    (l : list A) (x : A) :
  x ∈ dedupe_by read preloads seen l →
  alreadyModulePreload preloads (read x) = false.
Proof.
  revert seen. induction l as [|d l IH]; intros seen.
  { intros H. by apply elem_of_nil in H. }
  cbn [dedupe_by].
  destruct (alreadyModulePreload preloads (read d)) eqn:E; [apply IH|].
  destruct (decide (descriptor_key (read d) ∈ seen)); [apply IH|].
  rewrite elem_of_cons. intros [->|H]; [done|]. by eapply IH.
Qed.

(** X2. [dedupe] of Links.tsx leaves the store as it is and returns a
    sub-list of the descriptors, in order: the ones it keeps have pairwise
    distinct JSON texts and none is a script preload the page already has;
    each descriptor it is given that is no such preload is kept, itself or
    an earlier one with the same JSON text.  A descriptor counts as such a
    preload exactly when it is no page descriptor, its [as] is ['script'],
    and its [href] is a non-empty string among the preloads. *)
Theorem Links_dedupe_keeps_distinct (descriptors : list nat)
    (preloads : list (list N)) (h : list (list (list N * jsval))) :
  ∃ ls,
    Links.dedupe descriptors preloads h = Ok (ls, h)
    ∧ ls `sublist_of` descriptors
    ∧ NoDup (map (λ l, descriptor_key (deref h l)) ls)
    ∧ (∀ l, l ∈ ls → alreadyModulePreload preloads (deref h l) = false)
    ∧ (∀ l, l ∈ descriptors →
         alreadyModulePreload preloads (deref h l) = false →
         ∃ l', l' ∈ ls
               ∧ descriptor_key (deref h l') = descriptor_key (deref h l))
    ∧ (∀ d, alreadyModulePreload preloads d = true ↔
            isPageLinkDescriptor d = false
            ∧ get (js "as") d = VString (js "script")
            ∧ ∃ s, s ≠ [] ∧ get (js "href") d = VString s ∧ s ∈ preloads).
Proof.
  exists (dedupe_by (deref h) preloads [] descriptors).
  split; [done|]. split; [apply dedupe_by_sublist|].
  split; [apply dedupe_by_keys|].
  split; [intros l; apply dedupe_by_not_preload|]. split.
  - intros l Hl Hnot.
    destruct (dedupe_by_complete (deref h) preloads [] descriptors l Hl Hnot)
      as [Hs|H]; [by apply elem_of_nil in Hs|done].
  - intros d. unfold alreadyModulePreload, is_string, has.
    destruct (isPageLinkDescriptor d); cbn [negb andb].
    { split; [done|]. by intros [? _]. }
    destruct (get (js "as") d) as [| | | |a| |]; cbn [andb];
      try (split; [done|]; by intros (_ & ? & _)).
    destruct (decide (a = js "script")) as [->|Hne].
    + rewrite bool_decide_eq_true_2 by done. cbn [andb].
      destruct (get (js "href") d) as [| |b|n|s| |]; cbn [truthy andb];
        try (split; [done|]; by intros (_ & _ & ? & _ & ? & _)).
      * split; [by destruct b|]. by intros (_ & _ & ? & _ & ? & _).
      * split; [by destruct n as [|z]; [|destruct (negb _)]|].
        by intros (_ & _ & ? & _ & ? & _).
      * destruct s as [|c s]; cbn [andb].
        { split; [done|]. intros (_ & _ & s' & Hs' & Heq & _). by simplify_eq. }
        rewrite bool_decide_eq_true. split.
        -- intros Hin. split; [done|]. split; [done|]. by exists (c :: s).
        -- intros (_ & _ & s' & _ & Heq & Hin). by simplify_eq.
    + rewrite bool_decide_eq_false_2 by done. cbn [andb]. split; [done|].
      intros (_ & Has & _). by simplify_eq.
Qed.

(** ** The hrefs the page preloads *)

Lemma rmap_all_ok {A B} (f : A → result B) (g : A → B) (l : list A) :
  (∀ x, x ∈ l → f x = Ok (g x)) → rmap f l = Ok (map g l).
Proof.
  induction l as [|x l IH]; intros H; [done|].
  cbn [rmap map]. rewrite (H x) by (by left). cbn [rbind].
  rewrite IH; [done|]. intros y Hy. apply H. by right.
Qed.

Lemma rmap_throws {A B} (f : A → result B) (l : list A) (x : A) (e : exn) :
  (∀ y e', f y = Throw e' → e' = e) →
  x ∈ l → f x = Throw e → rmap f l = Throw e.
Proof.
  intros Honly Hx Hfx. induction l as [|y l IH]; [by apply elem_of_nil in Hx|].
  cbn [rmap]. destruct (f y) as [b|e'] eqn:Ey.
  - cbn [rbind]. apply elem_of_cons in Hx as [->|Hx]; [congruence|].
    by rewrite (IH Hx).
  - cbn [rbind]. f_equal. by eapply Honly.
Qed.

Lemma elem_of_concat {A} (x : A) (ls : list (list A)) :
  x ∈ concat ls ↔ ∃ l, x ∈ l ∧ l ∈ ls.
Proof.
  rewrite list_elem_of_In, in_concat. split.
  - intros (l & Hl & Hx). exists l. by rewrite !list_elem_of_In.
  - intros (l & Hx & Hl). exists l. by rewrite <- !list_elem_of_In.
Qed.

(** X3. [getCurrentPageModulePreloadHrefs]: when every match has a route
    in the manifest, the result has no duplicate and holds exactly the
    module and the imports of the matched routes; when some match has none
    (or there is a match and no manifest), reading the missing route's
    module is a TypeError; with no match the result is empty, manifest or
    not. *)
Theorem page_preload_hrefs_spec (ms : list RouteMatch) (mf : AssetsManifest) :
  ((∀ m, m ∈ ms → is_Some (routes mf !! route_id m)) →
   ∃ hrefs,
     getCurrentPageModulePreloadHrefs ms (Some mf) = Ok hrefs
     ∧ NoDup hrefs
     ∧ ∀ u, u ∈ hrefs ↔
            ∃ m r, m ∈ ms ∧ routes mf !! route_id m = Some r
                   ∧ (u = module r ∨ u ∈ default [] (imports r)))
  ∧ (∀ m, m ∈ ms → routes mf !! route_id m = None →
       getCurrentPageModulePreloadHrefs ms (Some mf) = Throw TypeError)
  ∧ (ms ≠ [] → getCurrentPageModulePreloadHrefs ms None = Throw TypeError)
  ∧ getCurrentPageModulePreloadHrefs [] None = Ok [].
Proof.
  split; [|split; [|split]].
  - intros Hall.
    set (g := λ m : RouteMatch,
           match routes mf !! route_id m with
           | Some r => [module r] ++ default [] (imports r)
           | None => []
           end).
    assert (Hrun : rmap (route_hrefs (Some mf)) ms = Ok (map g ms)).
    { apply rmap_all_ok. intros m Hm. unfold route_hrefs, route_of, g.
      by destruct (Hall m Hm) as [r ->]. }
    exists (dedupeHrefs (concat (map g ms))).
    unfold getCurrentPageModulePreloadHrefs. rewrite Hrun. split; [done|].
    unfold dedupeHrefs. destruct (dedupe_from_spec [] (concat (map g ms)))
      as [Hnd Hiff].
    split; [done|]. intros u. rewrite Hiff. split.
    + intros [Hu _]. apply elem_of_concat in Hu as (us & Hu & Hus).
      apply list_elem_of_In, in_map_iff in Hus as (m & <- & Hm).
      apply list_elem_of_In in Hm. destruct (Hall m Hm) as [r Hr].
      exists m, r. split; [done|]. split; [done|].
      unfold g in Hu. rewrite Hr in Hu. apply elem_of_app in Hu as [Hu|Hu].
      * left. by apply list_elem_of_singleton in Hu.
      * by right.
    + intros (m & r & Hm & Hr & Hu). split; [|apply not_elem_of_nil].
      apply elem_of_concat. exists (g m). split.
      * unfold g. rewrite Hr. apply elem_of_app.
        destruct Hu as [->|Hu]; [left; by apply list_elem_of_singleton|by right].
      * apply list_elem_of_In, in_map_iff. exists m.
        split; [done|by apply list_elem_of_In].
  - intros m Hm Hnone. unfold getCurrentPageModulePreloadHrefs.
    rewrite (rmap_throws (route_hrefs (Some mf)) ms m TypeError); [done| |done|].
    + intros y e'. unfold route_hrefs, route_of.
      destruct (routes mf !! route_id y); [done|]. cbn. congruence.
    + unfold route_hrefs, route_of. by rewrite Hnone.
  - intros Hne. destruct ms as [|m ms]; [done|]. done.
  - done.
Qed.

Lemma page_preload_hrefs_spec_witness :
  getCurrentPageModulePreloadHrefs (matches Examples.state0)
    (Some Examples.manifest0) =
  Ok [js "/build/root.js"; js "/build/shared.js"]
  ∧ getCurrentPageModulePreloadHrefs [ {| route_id := js "missing" |} ]
      (Some Examples.manifest0) = Throw TypeError
  ∧ getCurrentPageModulePreloadHrefs (matches Examples.state0) None =
    Throw TypeError.
Proof.
  destruct (page_preload_hrefs_spec (matches Examples.state0) Examples.manifest0)
    as (H1 & _ & H3 & _).
  destruct (page_preload_hrefs_spec [ {| route_id := js "missing" |} ]
              Examples.manifest0) as (_ & H2 & _).
  split; [|split].
  - destruct H1 as (hrefs & Hrun & _).
    + intros m Hm. apply list_elem_of_singleton in Hm. subst m.
      eexists. reflexivity.
    + reflexivity.
  - apply (H2 {| route_id := js "missing" |}); [by left|reflexivity].
  - by apply H3.
Defined.

(** ** Escaping *)

(** X4. [escapeHtml] works code unit by code unit: it distributes over
    concatenation, and its result is longer than its argument by five code
    units for each [&], [<], [>], U+2028 and U+2029 of the argument. *)
Theorem escapeHtml_length_and_concat (s t : list N) :
  escapeHtml (s ++ t) = escapeHtml s ++ escapeHtml t
  ∧ length (escapeHtml s) =
    (length s + 5 * length (filter (λ c, ESCAPE_REGEX c = true) s))%nat
  ∧ (escapeHtml s = s ↔ html_safe s).
Proof.
  split; [apply flat_map_app|]. split.
  - induction s as [|c s IH]; [done|].
    rewrite escapeHtml_cons, length_app, IH, filter_cons.
    destruct (ESCAPE_REGEX c) eqn:E.
    + rewrite decide_True by done.
      change (length (unicode_escape c)) with 6%nat. cbn [length]. lia.
    + rewrite decide_False by done. cbn [length]. lia.
  - split; [|apply escapeHtml_fixed].
    intros H. unfold html_safe. rewrite <- H. apply escapeHtml_clean.
Qed.

Lemma hexdigit_safe (d : N) : d < 16 → ESCAPE_REGEX (hexdigit d) = false.
Proof.
  intros Hd. unfold hexdigit, ESCAPE_REGEX. rewrite !orb_false_iff, !N.eqb_neq.
  destruct (d <? 10) eqn:E.
  - apply N.ltb_lt in E. lia.
  - apply N.ltb_ge in E. lia.
Qed.

Lemma unicode_escape_safe (c : N) : html_safe (unicode_escape c).
Proof.
  unfold unicode_escape, html_safe. apply Forall_app. split.
  - repeat constructor.
  - repeat constructor; apply hexdigit_safe; by apply N.mod_lt.
Qed.

Lemma quote_unit_safe (c : N) :
  html_safe (quote_unit c) ↔ ESCAPE_REGEX c = false.
Proof.
  destruct (ESCAPE_REGEX c) eqn:E.
  - split; [|done]. intros H.
    destruct (ESCAPE_REGEX_cases c E) as [->|[->|[->|[->| ->]]]];
      vm_compute in H; by inversion H.
  - split; [done|]. intros _. unfold quote_unit.
    repeat match goal with
           | |- context [if ?b then _ else _] =>
               destruct b; [try (by repeat constructor)|]
           end.
    + apply unicode_escape_safe.
    + by repeat constructor.
Qed.

Lemma lead_safe (c : N) : is_lead c = true → ESCAPE_REGEX c = false.
Proof.
  unfold is_lead, ESCAPE_REGEX.
  rewrite andb_true_iff, !N.leb_le, !orb_false_iff, !N.eqb_neq. lia.
Qed.

Lemma trail_safe (c : N) : is_trail c = true → ESCAPE_REGEX c = false.
Proof.
  unfold is_trail, ESCAPE_REGEX.
  rewrite andb_true_iff, !N.leb_le, !orb_false_iff, !N.eqb_neq. lia.
Qed.

(** [JSON.stringify] of a string does not escape the characters of HTML:
    its result holds one exactly when the string does. *)
Lemma quote_units_safe (s : list N) :
  (html_safe (quote_units s) ↔ html_safe s)
  ∧ ∀ c, html_safe (quote_units (c :: s)) ↔ html_safe (c :: s).
Proof.
  unfold html_safe. induction s as [|d s [IH1 IH2]].
  - split; [done|]. intros c. cbn [quote_units].
    rewrite quote_unit_safe, Forall_cons, Forall_nil. tauto.
  - split; [apply IH2|]. intros c. cbn [quote_units].
    destruct (is_lead c && is_trail d) eqn:E.
    + apply andb_true_iff in E as [Hc Hd].
      rewrite !Forall_cons, IH1, (lead_safe c Hc), (trail_safe d Hd). tauto.
    + rewrite Forall_app, (IH2 d), (Forall_cons _ c), quote_unit_safe. tauto.
Qed.

Lemma JSON_string_safe (s : list N) : html_safe (JSON_string s) ↔ html_safe s.
Proof.
  unfold JSON_string, quote, html_safe. rewrite !Forall_app.
  destruct (quote_units_safe s) as [H _]. unfold html_safe in H. rewrite H.
  split; [tauto|]. intros Hs. split; [by repeat constructor|].
  split; [done|by repeat constructor].
Qed.

(** X5. The scripts that stream a settled key escape the data (or the
    error) for HTML but not the route id and the key, which only go
    through [JSON.stringify]: the script text is free of [&], [<], [>],
    U+2028 and U+2029 exactly when the route id and the key are. *)
Theorem streamed_script_safe_iff_ids_safe env (rid dk : list N) :
  (∀ v props type async html,
     Await_children rid dk v = Ok (script props type async html) →
     (html_safe (__html html) ↔ html_safe rid ∧ html_safe dk))
  ∧ (∀ e props type async html,
       ErrorDeferredHydrationScript env dk rid e =
       Ok (script props type async html) →
       (html_safe (__html html) ↔ html_safe rid ∧ html_safe dk)).
Proof.
  assert (Hlit : ∀ a b c d ser : list N,
            html_safe a → html_safe b → html_safe c → html_safe d →
            (html_safe (a ++ JSON_string rid ++ b ++ JSON_string dk ++ c ++
                        escapeHtml ser ++ d)
             ↔ html_safe rid ∧ html_safe dk)).
  { intros a b c d ser Ha Hb Hc Hd. unfold html_safe in *.
    rewrite !Forall_app. fold (html_safe (JSON_string rid)).
    fold (html_safe (JSON_string dk)). rewrite !JSON_string_safe.
    pose proof (escapeHtml_clean ser). unfold html_safe. tauto. }
  split.
  - intros v props type async html. unfold Await_children, escapeHtml_json.
    destruct (JSON_stringify v) as [t|]; [|done]. cbn [rbind].
    intros H.
    match type of H with
    | Ok (script _ _ _ (createHtml ?x)) = _ =>
        assert (Hh : html = createHtml x) by congruence
    end.
    rewrite Hh. apply Hlit; by repeat constructor.
  - intros e props type async html.
    unfold ErrorDeferredHydrationScript, escapeHtml_json.
    destruct (JSON_stringify _) as [t|]; [|done]. cbn [rbind].
    intros H.
    match type of H with
    | Ok (script _ _ _ (createHtml ?x)) = _ =>
        assert (Hh : html = createHtml x) by congruence
    end.
    rewrite Hh. apply Hlit; by repeat constructor.
Qed.

Lemma streamed_script_safe_iff_ids_safe_witness :
  ∃ html,
    Await_children (js "root") (js "<k>") (VString (js "<b>")) =
    Ok (script [] None true html)
    ∧ ¬ html_safe (__html html).
Proof.
  destruct (streamed_script_safe_iff_ids_safe Examples.server_env
              (js "root") (js "<k>")) as [H _].
  destruct (Await_children (js "root") (js "<k>") (VString (js "<b>")))
    as [[| props type async html|]|] eqn:E; try (by vm_compute in E).
  assert (E' := E). vm_compute in E'. injection E' as -> -> -> _.
  exists html. split; [done|]. intros Hs.
  apply (H _ _ _ _ _ E) in Hs as [_ Hk]. vm_compute in Hk.
  inversion Hk as [|? ? Hc _]. discriminate Hc.
Defined.

(** X6. [ErrorDeferredHydrationScript] always renders a script; outside
    development the script holds the message of the error only, so that two
    errors with one message render the same script whatever their stacks;
    in development the stack is serialised after the message. *)
Theorem error_script_hides_stack_in_production env (dk rid : list N)
    (e : JsError) :
  (∃ html, ErrorDeferredHydrationScript env dk rid e =
           Ok (script [] None false html))
  ∧ (development env = false →
     ErrorDeferredHydrationScript env dk rid e =
     Ok (script [] None false
           (createHtml
              (js "__remixContext.r(" ++ JSON_string rid ++ js ", " ++
               JSON_string dk ++ js ", !1, " ++
               escapeHtml (js "{" ++ JSON_string (js "message") ++ js ":" ++
                           JSON_string (message e) ++ js "}") ++ js ");"))))
  ∧ (∀ st, development env = true → stack e = Some st →
     ErrorDeferredHydrationScript env dk rid e =
     Ok (script [] None false
           (createHtml
              (js "__remixContext.r(" ++ JSON_string rid ++ js ", " ++
               JSON_string dk ++ js ", !1, " ++
               serialized (VObject [ (js "message", VString (message e));
                                     (js "stack", VString st) ]) ++ js ");")))).
Proof.
  unfold ErrorDeferredHydrationScript, escapeHtml_json, toSerialize.
  split; [|split].
  - by eexists.
  - intros ->. reflexivity.
  - intros st -> ->. reflexivity.
Qed.

(** ** The hydration component *)

(** X7. [DeferredHydrationScript] in the browser, or with a prop
    missing, never throws and renders the placeholder: a [Suspense] whose
    fallback and child both are the blank script.  On the server, for a
    pending key, the fallback is [null] and the child awaits the tracked
    promise stored under the key. *)
Theorem DeferredHydrationScript_placeholder env p :
  (server env = false ∨ deferredData p = None ∨ dataKey p = None
   ∨ routeId p = None →
   DeferredHydrationScript env p =
   Ok {| fallback := Some blank_script; children := placeholder blank_script |})
  ∧ (∀ dd dk rid,
       server env = true →
       deferredData p = Some dd → dataKey p = Some dk → routeId p = Some rid →
       dk ≠ [] → rid ≠ [] → dk ∈ pendingKeys dd →
       DeferredHydrationScript env p =
       Ok {| fallback := None; children := Await (data dd !! dk) rid dk |}).
Proof.
  split.
  - intros H. unfold DeferredHydrationScript.
    assert (Hargs : server_args env p = None).
    { unfold server_args. destruct (server env); [|done].
      destruct H as [H|[->|[H|H]]]; [done|done| |].
      - rewrite H. by destruct (deferredData p).
      - rewrite H. by destruct (deferredData p), (dataKey p). }
    by rewrite Hargs.
  - intros dd dk rid Hs Hdd Hdk Hrid Hk Hr Hp.
    unfold DeferredHydrationScript, server_args. rewrite Hs, Hdd, Hdk, Hrid.
    destruct dk as [|c dk]; [done|]. destruct rid as [|c' rid]; [done|].
    cbn [truthy_str andb]. by rewrite bool_decide_eq_true_2.
Qed.

Lemma DeferredHydrationScript_placeholder_witness :
  DeferredHydrationScript Examples.hydrating_env
    {| key := KeyNum 0; deferredData := None; routeId := None; dataKey := None |} =
  Ok {| fallback := Some blank_script; children := placeholder blank_script |}
  ∧ DeferredHydrationScript Examples.server_env
      {| key := KeyStr (js "root | a");
         deferredData := Some Examples.deferred0;
         routeId := Some (js "root"); dataKey := Some (js "a") |} =
    Ok {| fallback := None;
          children := Await (Some {| _error := None; _data := VUndefined |})
                        (js "root") (js "a") |}.
Proof.
  split.
  - apply (DeferredHydrationScript_placeholder Examples.hydrating_env
             {| key := KeyNum 0; deferredData := None; routeId := None;
                dataKey := None |}).
    left. reflexivity.
  - destruct (DeferredHydrationScript_placeholder Examples.server_env
                {| key := KeyStr (js "root | a");
                   deferredData := Some Examples.deferred0;
                   routeId := Some (js "root"); dataKey := Some (js "a") |})
      as [_ H].
    apply (H Examples.deferred0 (js "a") (js "root")); try reflexivity.
    + intros E. by vm_compute in E.
    + intros E. by vm_compute in E.
    + apply (bool_decide_unpack _). by vm_compute.
Defined.

(** ** Renders of [Scripts] after the first *)

(** X8. While a navigation is under way to a location no route matches,
    a re-render of [Scripts] throws the error of its invariant, naming the
    path. *)
Theorem Scripts_navigation_without_match env prefix props remix router state
    initial loc :
  navigation_location env = Some loc →
  matchRoutes router loc = None →
  Scripts env prefix props (Some remix) (Some router) (Some state) (Some initial) =
  Throw (Error (js "No routes match path " ++ dq ++ pathname loc ++ dq)).
Proof.
  intros Hloc Hnone. unfold Scripts, useMemo_once, mret. cbn [rbind].
  unfold nextMatches. by rewrite Hloc, Hnone.
Qed.

Lemma Scripts_navigation_without_match_witness :
  Scripts {| development := false; server := false; isHydrated := true;
             global_a := None;
             navigation_location := Some {| pathname := js "/nowhere" |} |}
    (Some Examples.cdn) [] (Some Examples.remix0) (Some Examples.router_client)
    (Some Examples.state0) (Some Examples.kept_client) =
  Throw (Error (js "No routes match path " ++ dq ++ js "/nowhere" ++ dq)).
Proof.
  apply (Scripts_navigation_without_match _ (Some Examples.cdn) []
           Examples.remix0 Examples.router_client Examples.state0
           Examples.kept_client {| pathname := js "/nowhere" |});
    reflexivity.
Defined.

(** X9. Once hydration has completed, [Scripts] renders the two
    [modulepreload] links of the manifest URL and of the entry module and
    nothing else: no preload of an import, no inline script, no hydration
    element. *)
Theorem Scripts_after_hydration env prefix props remix router state memo r :
  isHydrated env = true →
  Scripts env prefix props (Some remix) (Some router) (Some state) memo = Ok r →
  output r =
  [ link_modulepreload (addPrefix (url (manifest remix)) prefix)
      (get (js "crossOrigin") props);
    link_modulepreload (addPrefix (entry_module (entry (manifest remix))) prefix)
      (get (js "crossOrigin") props) ].
Proof.
  intros Hhyd H. unfold Scripts in H.
  destruct (useMemo_once memo _ []) as [[initial pushed]|]; [|done].
  cbn [rbind] in H.
  destruct (nextMatches router env) as [next|]; [|done]. cbn [rbind] in H.
  destruct (rmap _ _) as [rp|]; [|done]. cbn [rbind] in H.
  injection H as <-. cbn [output]. unfold fragment. by rewrite Hhyd.
Qed.

Lemma Scripts_after_hydration_witness :
  ∃ r,
    Scripts Examples.hydrated_env (Some Examples.cdn) [] (Some Examples.remix0)
      (Some Examples.router_client) (Some Examples.state0)
      (Some Examples.kept_client) = Ok r
    ∧ output r =
      [ link_modulepreload (js "https://cdn/build/manifest.js") VUndefined;
        link_modulepreload (js "https://cdn/build/entry.js") VUndefined ].
Proof.
  destruct (Scripts Examples.hydrated_env (Some Examples.cdn) []
              (Some Examples.remix0) (Some Examples.router_client)
              (Some Examples.state0) (Some Examples.kept_client))
    as [r|] eqn:E; [|by vm_compute in E].
  exists r. split; [done|].
  rewrite (Scripts_after_hydration Examples.hydrated_env (Some Examples.cdn) []
             Examples.remix0 Examples.router_client Examples.state0
             (Some Examples.kept_client) r eq_refl E).
  reflexivity.
Defined.

(** X10. A matched route, or a route matched by the pending navigation,
    that the manifest does not hold makes a re-render of [Scripts] throw a
    TypeError. *)
Theorem Scripts_route_missing_from_manifest env prefix props remix router state
    initial next m :
  nextMatches router env = Ok next →
  m ∈ matches state ++ next →
  routes (manifest remix) !! route_id m = None →
  Scripts env prefix props (Some remix) (Some router) (Some state) (Some initial) =
  Throw TypeError.
Proof.
  intros Hnext Hm Hnone. unfold Scripts, useMemo_once, mret. cbn [rbind].
  rewrite Hnext. cbn [rbind].
  rewrite (rmap_throws (route_preloads (manifest remix)) _ m TypeError); [done| |done|].
  - intros y e'. unfold route_preloads, route_of.
    destruct (routes (manifest remix) !! route_id y); [done|]. cbn. congruence.
  - unfold route_preloads, route_of. by rewrite Hnone.
Qed.

Lemma Scripts_route_missing_from_manifest_witness :
  Scripts Examples.hydrated_env None [] (Some Examples.remix0)
    (Some Examples.router_client)
    (Some {| matches := [ {| route_id := js "root" |};
                          {| route_id := js "routes/gone" |} ] |})
    (Some Examples.kept_client) = Throw TypeError.
Proof.
  apply (Scripts_route_missing_from_manifest Examples.hydrated_env None []
           Examples.remix0 Examples.router_client
           {| matches := [ {| route_id := js "root" |};
                           {| route_id := js "routes/gone" |} ] |}
           Examples.kept_client [] {| route_id := js "routes/gone" |}).
  - reflexivity.
  - right. by left.
  - reflexivity.
Defined.

Lemma fragment_scripts env prefix props manifest preloads initial
    deferredScripts :
  Forall (λ e, is_script e = true) initial →
  Forall (λ e, is_deferred e = true) deferredScripts →
  filter (λ e, is_script e = true)
    (fragment env prefix props manifest preloads initial deferredScripts) =
  if isHydrated env then [] else initial.
Proof.
  intros Hi Hd. unfold fragment. rewrite !filter_app.
  assert (H1 : ∀ l : list (list N),
            filter (λ e, is_script e = true)
              (map (λ path, link_modulepreload (addPrefix path prefix)
                              (get (js "crossOrigin") props)) l) = []).
  { induction l as [|x l IH]; [done|]. cbn [map]. by rewrite filter_cons, IH. }
  rewrite H1. cbn [app].
  assert (H2 : ∀ l, Forall (λ e, is_script e = true) l →
                    filter (λ e, is_script e = true) l = l).
  { induction 1 as [|x l Hx _ IH]; [done|].
    by rewrite filter_cons, decide_True, IH. }
  assert (H3 : ∀ l, Forall (λ e, is_deferred e = true) l →
                    filter (λ e, is_script e = true) l = []).
  { induction 1 as [|x l Hx _ IH]; [done|].
    rewrite filter_cons, IH. by destruct x. }
  rewrite !filter_cons, !decide_False by done. rewrite filter_nil. cbn [app].
  destruct (isHydrated env); [done|]. by rewrite (H2 _ Hi), (H3 _ Hd), app_nil_r.
Qed.

(** X11. The initial scripts are computed once per component instance:
    a later render, whatever its environment, prefix, props and contexts,
    keeps the scripts of the first render and, until hydration has
    completed, renders them again as they were. *)
Theorem Scripts_initial_scripts_kept
    env1 prefix1 props1 remix1 router1 state1 r1
    env2 prefix2 props2 remix2 router2 state2 r2 :
  Scripts env1 prefix1 props1 (Some remix1) (Some router1) (Some state1) None =
  Ok r1 →
  Scripts env2 prefix2 props2 (Some remix2) (Some router2) (Some state2)
    (Some (kept r1)) = Ok r2 →
  kept r2 = kept r1
  ∧ filter (λ e, is_script e = true) (output r2) =
    (if isHydrated env2 then [] else kept r1)
  ∧ length (kept r1) = 2%nat.
Proof.
  intros H1 H2.
  assert (Hk : Forall (λ e, is_script e = true) (kept r1) ∧ length (kept r1) = 2%nat).
  { rewrite Scripts_first_render in H1.
    destruct (contextScript env1 remix1 (staticContext router1) [])
      as [[ctx pushed]|]; [|done].
    render_steps H1. split; [by repeat constructor|done]. }
  destruct Hk as [Hk Hlen]. unfold Scripts in H2.
  unfold useMemo_once, mret in H2. cbn [rbind] in H2.
  destruct (nextMatches router2 env2) as [next|]; [|done]. cbn [rbind] in H2.
  destruct (rmap _ _) as [rp|]; [|done]. cbn [rbind] in H2.
  injection H2 as <-. cbn [output kept]. split; [done|]. split; [|done].
  apply fragment_scripts; [done|]. cbn [app]. apply client_placeholders_deferred.
Qed.

Lemma Scripts_initial_scripts_kept_witness :
  ∃ r1 r2,
    Scripts Examples.hydrating_env (Some Examples.cdn) [] (Some Examples.remix0)
      (Some Examples.router_client) (Some Examples.state0) None = Ok r1
    ∧ Scripts Examples.hydrating_env None [] (Some Examples.remix_dev)
        (Some Examples.router_client) (Some Examples.state0) (Some (kept r1)) =
      Ok r2
    ∧ kept r2 = Examples.kept_client.
Proof.
  destruct (Scripts Examples.hydrating_env (Some Examples.cdn) []
              (Some Examples.remix0) (Some Examples.router_client)
              (Some Examples.state0) None) as [r1|] eqn:E1;
    [|by vm_compute in E1].
  destruct (Scripts Examples.hydrating_env None [] (Some Examples.remix_dev)
              (Some Examples.router_client) (Some Examples.state0)
              (Some (kept r1))) as [r2|] eqn:E2.
  - exists r1, r2. split; [done|]. split; [done|].
    destruct (Scripts_initial_scripts_kept _ _ _ _ _ _ _ _ _ _ _ _ _ _ E1 E2)
      as (-> & _).
    vm_compute in E1. injection E1 as <-. reflexivity.
  - exfalso. vm_compute in E1. injection E1 as <-. by vm_compute in E2.
Defined.

(** ** Further properties of [Links] *)

(** X12. [Links] has no guard for its contexts: without the router state
    the render throws a TypeError, and so it does without the Remix
    context when there is a match; with no match and no Remix context it
    renders nothing. *)
Theorem Links_missing_context useId prefix (remix : option RemixContext)
    (state : DataRouterStateContext) (h : list (list (list N * jsval))) :
  Links useId prefix remix None None h = Throw TypeError
  ∧ (matches state ≠ [] →
     Links useId prefix None (Some state) None h = Throw TypeError)
  ∧ (matches state = [] →
     Links useId prefix None (Some state) None h = Ok (([], []), h)).
Proof.
  split; [done|]. split.
  - intros Hne. unfold Links, getLinksForMatches. cbn [fmap option_fmap option_map].
    destruct (matches state) as [|m ms]; [done|]. done.
  - intros Hnil. unfold Links, getLinksForMatches.
    cbn [fmap option_fmap option_map]. by rewrite Hnil.
Qed.

Lemma get_set_same (k k' : list N) (o : list (list N * jsval)) :
  get k (set k' (get k' o) o) = get k o.
Proof.
  destruct (decide (k = k')) as [->|Hne].
  - by rewrite get_set_eq.
  - by rewrite get_set_ne.
Qed.

(** X13. With no prefix, or with the empty prefix, the [forEach] of
    [Links] changes the value of no property of a descriptor; so [Links],
    computing the links anew from modules whose [links] create their
    descriptors on each call, renders the descriptors [dedupe] keeps with
    the property values the modules gave them. *)
Theorem Links_without_prefix useId prefix remix state dss preloads
    (h : list (list (list N * jsval))) :
  truthy_str prefix = false →
  matched_descriptors (routeModules remix) (matches state) dss →
  getCurrentPageModulePreloadHrefs (matches state) (Some (manifest remix)) =
  Ok preloads →
  (∀ d k, get k (parseLink prefix d) = get k d)
  ∧ ∃ ls h',
      Links useId prefix (Some remix) (Some state) None h =
      Ok ((map (λ d, emitted useId (parseLink prefix d))
             (kept_descriptors preloads (concat dss)), ls), h').
Proof.
  intros Hp Hm Hpre. split; [|by eapply Links_fresh_run].
  intros d k. unfold parseLink. rewrite Hp.
  destruct (negb (isPageLinkDescriptor d)).
  - destruct (is_string _ _); [apply get_set_same|done].
  - destruct (truthy _); [apply get_set_same|done].
Qed.

Lemma Links_without_prefix_witness :
  ∃ ls h',
    Links true None
      (Some (Examples.remix_links [Examples.stylesheet_a; Examples.page_x]))
      (Some Examples.state0) None [] =
    Ok (([ link Examples.stylesheet_a; PrefetchPageLinks Examples.page_x ], ls), h').
Proof.
  assert (Hm : matched_descriptors
                 (routeModules
                    (Examples.remix_links [Examples.stylesheet_a; Examples.page_x]))
                 (matches Examples.state0)
                 [[Examples.stylesheet_a; Examples.page_x]]).
  { constructor; [|constructor].
    exists (Examples.root_module [Examples.stylesheet_a; Examples.page_x]).
    split; [by vm_compute|]. apply fresh_returns_fresh. }
  destruct (Links_without_prefix true None
              (Examples.remix_links [Examples.stylesheet_a; Examples.page_x])
              Examples.state0 [[Examples.stylesheet_a; Examples.page_x]]
              [js "/build/root.js"; js "/build/shared.js"] [] eq_refl Hm eq_refl)
    as (_ & ls & h' & Hrun).
  exists ls, h'. rewrite Hrun. by vm_compute.
Defined.

(** X14. The prefix [getLinksForMatches] puts before the stylesheets is
    lost when the modules' [links] create their descriptors on each call:
    it is written into the objects of a first call and the objects of a
    second call are returned, so the result holds the descriptors as the
    modules gave them, whatever the prefix. *)
Theorem getLinksForMatches_returns_unprefixed prefix rms mf ms dss preloads
    (h : list (list (list N * jsval))) :
  matched_descriptors rms ms dss →
  getCurrentPageModulePreloadHrefs ms (Some mf) = Ok preloads →
  ∃ ls h',
    getLinksForMatches (Some ms) (Some rms) (Some mf) prefix h = Ok (ls, h')
    ∧ map (deref h') ls = kept_descriptors preloads (concat dss).
Proof.
  intros Hm Hp.
  destruct (links_of_matches_fresh rms (default [] prefix) ms dss Hm h)
    as (lss & ext & Hrun & Hvals & _).
  exists (dedupe_by (deref (h ++ ext)) preloads [] (concat lss)), (h ++ ext).
  unfold getLinksForMatches, mbind. rewrite Hrun. unfold mlift. rewrite Hp.
  split; [done|]. unfold kept_descriptors. by rewrite <- Hvals, dedupe_by_read.
Qed.

Lemma getLinksForMatches_returns_unprefixed_witness :
  ∃ ls h',
    getLinksForMatches (Some (matches Examples.state0))
      (Some (routeModules (Examples.remix_links [Examples.stylesheet_a])))
      (Some Examples.manifest0) (Some Examples.cdn) [] = Ok (ls, h')
    ∧ map (deref h') ls = [Examples.stylesheet_a].
Proof.
  assert (Hm : matched_descriptors
                 (routeModules (Examples.remix_links [Examples.stylesheet_a]))
                 (matches Examples.state0) [[Examples.stylesheet_a]]).
  { constructor; [|constructor].
    exists (Examples.root_module [Examples.stylesheet_a]).
    split; [by vm_compute|]. apply fresh_returns_fresh. }
  destruct (getLinksForMatches_returns_unprefixed (Some Examples.cdn)
              (routeModules (Examples.remix_links [Examples.stylesheet_a]))
              Examples.manifest0 (matches Examples.state0)
              [[Examples.stylesheet_a]]
              [js "/build/root.js"; js "/build/shared.js"] [] Hm eq_refl)
    as (ls & h' & Hrun & Hvals).
  exists ls, h'. split; [done|]. rewrite Hvals. by vm_compute.
Defined.

(** The store after the rendering traversal, over distinct locations. *)
Lemma render_links_store useId (ls : list nat)
    (h : list (list (list N * jsval))) :
  NoDup ls → Forall (λ l, (l < length h)%nat) ls →
  ∃ h',
    mapM (render_link useId) ls h =
    Ok (map (λ l, emitted useId (deref h l)) ls, h')
    ∧ length h' = length h
    ∧ ∀ l, deref h' l =
           if decide (l ∈ ls)
           then (if isPageLinkDescriptor (deref h l) then deref h l
                 else normalize useId (deref h l))
           else deref h l.
Proof.
  intros Hnd. revert h. induction Hnd as [|l ls Hl Hnd IH]; intros h Hb.
  - exists h. split; [done|]. split; [done|]. intros l.
    rewrite decide_False; [done|]. apply not_elem_of_nil.
  - apply Forall_cons in Hb as [Hlb Hb].
    set (f := λ o, if isPageLinkDescriptor o then o else normalize useId o).
    assert (Hstep : render_link useId l h =
                    Ok (emitted useId (deref h l), <[l := f (deref h l)]> h)).
    { unfold render_link, emitted, f.
      destruct (isPageLinkDescriptor (deref h l)) eqn:Ep.
      - do 2 f_equal. symmetry. apply list_insert_id. unfold deref.
        destruct (h !! l) eqn:El; [done|].
        apply lookup_ge_None in El. lia.
      - unfold mbind, modify. by rewrite deref_insert, decide_True. }
    destruct (IH (<[l := f (deref h l)]> h)) as (h' & Hrest & Hlen & Hget).
    { by rewrite length_insert. }
    exists h'. rewrite mapM_cons, Hstep, Hrest. split; [|split].
    + cbn [map]. do 3 f_equal. apply map_ext_in. intros l' Hin.
      rewrite deref_insert, decide_False; [done| |done].
      intros ->. by apply Hl, list_elem_of_In.
    + by rewrite Hlen, length_insert.
    + intros l'. rewrite Hget, !(deref_insert h l l') by done.
      destruct (decide (l' = l)) as [->|Hne].
      * rewrite decide_False by done. rewrite decide_True; [done|]. by left.
      * destruct (decide (l' ∈ ls)) as [Hin|Hout].
        -- rewrite decide_True; [done|]. by right.
        -- rewrite decide_False; [done|]. rewrite elem_of_cons. tauto.
Qed.

Lemma rendered_stylesheet useId (p href : list N) (d : list (list N * jsval)) :
  p ≠ [] →
  isPageLinkDescriptor d = false →
  get (js "rel") d = VString (js "stylesheet") →
  get (js "href") d = VString href →
  isPageLinkDescriptor (rendered_object useId (Some p) d) = false
  ∧ get (js "rel") (rendered_object useId (Some p) d) = VString (js "stylesheet")
  ∧ get (js "href") (rendered_object useId (Some p) d) = VString (p ++ href).
Proof.
  intros Hp Hpage Hrel Hhref. unfold rendered_object, parseLink.
  rewrite Hpage, Hrel, Hhref. cbn [negb to_string].
  unfold is_string. rewrite bool_decide_eq_true_2 by done.
  destruct p as [|c p]; [done|]. cbn [truthy_str default].
  set (o := set (js "href") _ d).
  assert (Hne1 : js "page" ≠ js "href") by (intros H; by vm_compute in H).
  assert (Hne2 : js "rel" ≠ js "href") by (intros H; by vm_compute in H).
  assert (Ho : isPageLinkDescriptor o = false).
  { unfold isPageLinkDescriptor, o in *. by rewrite get_set_ne. }
  rewrite Ho. split; [|split].
  - unfold isPageLinkDescriptor in *.
    rewrite get_normalize by (right; right; by left).
    unfold o. by rewrite get_set_ne.
  - rewrite get_normalize by (right; by left). unfold o.
    by rewrite get_set_ne.
  - rewrite get_normalize by (by left). unfold o. by rewrite get_set_eq.
Qed.

Lemma Links_fresh_run_store useId prefix remix state dss preloads
    (h : list (list (list N * jsval))) :
  matched_descriptors (routeModules remix) (matches state) dss →
  getCurrentPageModulePreloadHrefs (matches state) (Some (manifest remix)) =
  Ok preloads →
  ∃ ls h',
    Links useId prefix (Some remix) (Some state) None h =
    Ok ((map (λ d, emitted useId (parseLink prefix d))
           (kept_descriptors preloads (concat dss)), ls), h')
    ∧ NoDup ls ∧ Forall (λ l, (l < length h')%nat) ls
    ∧ map (deref h') ls =
      map (rendered_object useId prefix) (kept_descriptors preloads (concat dss)).
Proof.
  intros Hm Hp.
  destruct (links_of_matches_fresh (routeModules remix) (default [] prefix)
              (matches state) dss Hm h) as (lss & ext & Hrun & Hvals & Hbound).
  set (hh := h ++ ext) in *.
  set (D := dedupe_by (deref hh) preloads [] (concat lss)).
  assert (HD : NoDup D) by apply dedupe_by_NoDup.
  assert (HDb : Forall (λ l, (l < length hh)%nat) D).
  { apply Forall_forall. intros l Hl. apply dedupe_by_subset in Hl.
    rewrite Forall_forall in Hbound. by apply Hbound. }
  destruct (foreach_distinct (parseLink prefix) D hh HD HDb)
    as (us & h2 & Hparse & Hlen2 & Hget2).
  destruct (render_links_store useId D h2 HD) as (h3 & Hrender & Hlen3 & Hget3).
  { by rewrite Hlen2. }
  assert (Hkept : kept_descriptors preloads (concat dss) = map (deref hh) D).
  { unfold kept_descriptors. by rewrite <- Hvals, <- dedupe_by_read. }
  exists D, h3. split; [|split; [done|split]].
  - unfold Links, getLinksForMatches. cbn [fmap option_fmap option_map].
    unfold mbind at 1 2. rewrite Hrun. unfold mbind at 1, mlift. rewrite Hp.
    unfold dedupe. fold D. unfold mbind at 1. rewrite Hparse.
    unfold mbind, mret. rewrite Hrender. do 3 f_equal.
    rewrite Hkept, map_map. apply map_ext_in. intros l Hl. rewrite Hget2.
    rewrite decide_True; [done|]. by apply list_elem_of_In.
  - by rewrite Hlen3, Hlen2.
  - rewrite Hkept, map_map. apply map_ext_in. intros l Hl.
    apply list_elem_of_In in Hl. by rewrite Hget3, Hget2, !decide_True by done.
Qed.

(** A render that finds the links in its memo. *)
Lemma Links_memo_run useId prefix remixContext routerState
    (ls : list nat) (h : list (list (list N * jsval))) :
  NoDup ls → Forall (λ l, (l < length h)%nat) ls →
  ∃ h',
    Links useId prefix remixContext routerState (Some ls) h =
    Ok ((map (λ l, emitted useId (parseLink prefix (deref h l))) ls, ls), h')
    ∧ length h' = length h
    ∧ ∀ l, l ∈ ls → deref h' l = rendered_object useId prefix (deref h l).
Proof.
  intros Hnd Hb.
  destruct (foreach_distinct (parseLink prefix) ls h Hnd Hb)
    as (us & h2 & Hparse & Hlen2 & Hget2).
  destruct (render_links_store useId ls h2 Hnd) as (h3 & Hrender & Hlen3 & Hget3).
  { by rewrite Hlen2. }
  exists h3. unfold Links, mbind, mret. rewrite Hparse, Hrender.
  split; [|split].
  - do 3 f_equal. apply map_ext_in. intros l Hl. rewrite Hget2.
    rewrite decide_True; [done|]. by apply list_elem_of_In.
  - by rewrite Hlen3.
  - intros l Hl. by rewrite Hget3, Hget2, !decide_True by done.
Qed.

Lemma render_again_memo useId prefix remixContext routerState (ls : list nat)
    (n : nat) :
  NoDup ls →
  ∀ h : list (list (list N * jsval)),
    Forall (λ l, (l < length h)%nat) ls →
    ∃ h',
      render_again useId prefix remixContext routerState (Some ls) n h =
      Ok ((map (λ k, map (λ l, emitted useId
                             (parseLink prefix
                                (Nat.iter k (rendered_object useId prefix)
                                   (deref h l)))) ls)
             (seq 0 n), Some ls), h')
      ∧ length h' = length h
      ∧ ∀ l, l ∈ ls →
             deref h' l = Nat.iter n (rendered_object useId prefix) (deref h l).
Proof.
  intros Hnd. induction n as [|n IH]; intros h Hb.
  - by exists h.
  - destruct (Links_memo_run useId prefix remixContext routerState ls h Hnd Hb)
      as (h1 & Hrun & Hlen & Hget).
    destruct (IH h1) as (h' & Hrest & Hlen' & Hget').
    { by rewrite Hlen. }
    exists h'. cbn [render_again]. unfold mbind at 1. rewrite Hrun.
    cbn [fst snd]. unfold mbind at 1. rewrite Hrest. unfold mret. cbn [fst snd].
    split; [|split].
    + cbn [seq map]. rewrite <- seq_shift, map_map. do 4 f_equal.
      apply map_ext_in. intros k _. apply map_ext_in. intros l Hl.
      apply list_elem_of_In in Hl. by rewrite Nat.iter_succ_r, Hget.
    + by rewrite Hlen'.
    + intros l Hl. by rewrite Nat.iter_succ_r, Hget', Hget.
Qed.

Lemma iter_rendered_stylesheet useId (p href : list N)
    (d : list (list N * jsval)) (k : nat) :
  p ≠ [] →
  isPageLinkDescriptor d = false →
  get (js "rel") d = VString (js "stylesheet") →
  get (js "href") d = VString href →
  isPageLinkDescriptor (Nat.iter k (rendered_object useId (Some p)) d) = false
  ∧ get (js "rel") (Nat.iter k (rendered_object useId (Some p)) d)
    = VString (js "stylesheet")
  ∧ get (js "href") (Nat.iter k (rendered_object useId (Some p)) d)
    = VString (concat (replicate k p) ++ href).
Proof.
  intros Hp Hpage Hrel Hhref.
  induction k as [|k (IH1 & IH2 & IH3)]; [done|].
  cbn [Nat.iter replicate concat]. rewrite <- app_assoc.
  by apply rendered_stylesheet.
Qed.

(** X15. Renders of [Links] in a row with unchanged dependencies, from
    matched route modules whose [links] functions create their descriptors
    on each call.  The first render computes the links; every later one
    finds them in its memo, reads neither context, updates each stored
    descriptor once more and renders it.  So render number [k] (from 0)
    renders each kept descriptor after [k] updates, and after the renders
    the store holds each kept descriptor updated once per render.  With a
    non-empty prefix, render number [k] renders a stylesheet descriptor
    with the prefix [k + 1] times before its original [href]. *)
Theorem Links_rerender_updates_again useId prefix remix state dss preloads
    (n : nat) (h : list (list (list N * jsval))) :
  matched_descriptors (routeModules remix) (matches state) dss →
  getCurrentPageModulePreloadHrefs (matches state) (Some (manifest remix)) =
  Ok preloads →
  (∃ ls h',
     render_again useId prefix (Some remix) (Some state) None (S n) h =
     Ok ((map (λ k, map (λ d, emitted useId
                            (parseLink prefix
                               (Nat.iter k (rendered_object useId prefix) d)))
                      (kept_descriptors preloads (concat dss)))
            (seq 0 (S n)), Some ls), h')
     ∧ NoDup ls
     ∧ map (deref h') ls =
       map (Nat.iter (S n) (rendered_object useId prefix))
           (kept_descriptors preloads (concat dss)))
  ∧ (∀ remixContext routerState ls h0,
       Links useId prefix remixContext routerState (Some ls) h0 =
       Links useId prefix None None (Some ls) h0)
  ∧ (∀ p href d k,
       prefix = Some p → p ≠ [] →
       isPageLinkDescriptor d = false →
       get (js "rel") d = VString (js "stylesheet") →
       get (js "href") d = VString href →
       ∃ o,
         emitted useId
           (parseLink prefix (Nat.iter k (rendered_object useId prefix) d)) =
         link o
         ∧ get (js "href") o = VString (concat (replicate (S k) p) ++ href)).
Proof.
  intros Hm Hpre. split; [|split; [done|]].
  - destruct (Links_fresh_run_store useId prefix remix state dss preloads h
                Hm Hpre) as (ls & h1 & Hrun & Hnd & Hb & Hstore).
    destruct (render_again_memo useId prefix (Some remix) (Some state) ls n
                Hnd h1 Hb) as (h' & Hrest & _ & Hget).
    exists ls, h'. cbn [render_again]. unfold mbind at 1. rewrite Hrun.
    cbn [fst snd]. unfold mbind at 1. rewrite Hrest. unfold mret. cbn [fst snd].
    split; [|split; [done|]].
    + cbn [seq map]. rewrite <- seq_shift, map_map. do 4 f_equal.
      apply map_ext_in. intros k _.
      rewrite <- (map_map (deref h1)
                    (λ o, emitted useId
                            (parseLink prefix
                               (Nat.iter k (rendered_object useId prefix) o)))).
      rewrite Hstore, map_map. apply map_ext_in. intros d _.
      by rewrite Nat.iter_succ_r.
    + rewrite (map_ext_in (deref h')
                 (λ l, Nat.iter n (rendered_object useId prefix) (deref h1 l))).
      2:{ intros l Hl. apply Hget. by apply list_elem_of_In. }
      rewrite <- (map_map (deref h1)
                    (Nat.iter n (rendered_object useId prefix))).
      rewrite Hstore, map_map. apply map_ext_in. intros d _.
      by rewrite Nat.iter_succ_r.
  - intros p href d k -> Hp Hpage Hrel Hhref.
    destruct (iter_rendered_stylesheet useId p href d k Hp Hpage Hrel Hhref)
      as (H1 & H2 & H3).
    destruct (stylesheet_rendered useId p _ Hp H1 H2) as (o & Ho & Hget).
    exists o. split; [done|]. rewrite Hget, H3.
    cbn [to_string replicate concat]. by rewrite <- app_assoc.
Qed.

Lemma Links_rerender_updates_again_witness :
  ∃ ls h',
    render_again true (Some Examples.cdn)
      (Some (Examples.remix_links [Examples.stylesheet_a]))
      (Some Examples.state0) None 3 [] =
    Ok (([ [ link [ (js "rel", VString (js "stylesheet"));
                    (js "href", VString (js "https://cdn/a.css")) ] ];
           [ link [ (js "rel", VString (js "stylesheet"));
                    (js "href", VString (js "https://cdnhttps://cdn/a.css")) ] ];
           [ link [ (js "rel", VString (js "stylesheet"));
                    (js "href",
                     VString (js "https://cdnhttps://cdnhttps://cdn/a.css")) ] ] ],
         Some ls), h')
    ∧ map (deref h') ls =
      [ [ (js "rel", VString (js "stylesheet"));
          (js "href", VString (js "https://cdnhttps://cdnhttps://cdn/a.css")) ] ].
Proof.
  assert (Hm : matched_descriptors
                 (routeModules (Examples.remix_links [Examples.stylesheet_a]))
                 (matches Examples.state0) [[Examples.stylesheet_a]]).
  { constructor; [|constructor].
    exists (Examples.root_module [Examples.stylesheet_a]).
    split; [by vm_compute|]. apply fresh_returns_fresh. }
  destruct (Links_rerender_updates_again true (Some Examples.cdn)
              (Examples.remix_links [Examples.stylesheet_a]) Examples.state0
              [[Examples.stylesheet_a]]
              [js "/build/root.js"; js "/build/shared.js"] 2 [] Hm eq_refl)
    as ((ls & h' & Hrun & _ & Hstore) & _).
  exists ls, h'. rewrite Hrun, Hstore. split; by vm_compute.
Defined.

Lemma dedupe_by_ext {A} (read read' : A → list (list N * jsval)) preloads seen
    (l : list A) :
  (∀ x, x ∈ l → read x = read' x) →
  dedupe_by read preloads seen l = dedupe_by read' preloads seen l.
Proof.
  revert seen. induction l as [|d l IH]; intros seen H; [done|].
  cbn [dedupe_by]. rewrite <- (H d) by (by left).
  assert (Hl : ∀ x, x ∈ l → read x = read' x) by (intros x Hx; apply H; by right).
  destruct (alreadyModulePreload preloads (read d)); [by apply IH|].
  destruct (decide (descriptor_key (read d) ∈ seen)); [by apply IH|].
  f_equal. by apply IH.
Qed.

(** X16. When the one matched module's [links] returns the same
    descriptor objects on every call (an array kept in a constant), a
    render that computes the links anew updates each object twice: once in
    [getLinksForMatches] and once in [Links].  A stylesheet descriptor with
    a non-empty [href] is then rendered with the prefix twice before its
    [href], and keeps it in the store for the next request. *)
Theorem Links_shared_descriptors_prefixed_twice useId prefix remix state m md
    (ls : list nat) preloads (h : list (list (list N * jsval))) :
  matches state = [m] →
  routeModules remix !! route_id m = Some md →
  links md = Some (shared ls) →
  NoDup ls → Forall (λ l, (l < length h)%nat) ls →
  getCurrentPageModulePreloadHrefs [m] (Some (manifest remix)) = Ok preloads →
  (∃ kept h',
     kept = dedupe_by
              (λ l, prefix_stylesheet (default [] prefix) (deref h l))
              preloads [] ls
     ∧ Links useId prefix (Some remix) (Some state) None h =
       Ok ((map (λ l, emitted useId
                        (parseLink prefix
                           (prefix_stylesheet (default [] prefix) (deref h l))))
              kept, kept), h')
     ∧ ∀ l, l ∈ kept →
            deref h' l =
            rendered_object useId prefix
              (prefix_stylesheet (default [] prefix) (deref h l)))
  ∧ ∀ p href d,
      prefix = Some p → p ≠ [] → href ≠ [] →
      isPageLinkDescriptor d = false →
      get (js "rel") d = VString (js "stylesheet") →
      get (js "href") d = VString href →
      get (js "href")
        (rendered_object useId prefix (prefix_stylesheet (default [] prefix) d)) =
      VString (p ++ p ++ href).
Proof.
  intros Hms Hmd Hlinks Hnd Hb Hpre. split.
  - set (ps := prefix_stylesheet (default [] prefix)).
    destruct (foreach_distinct ps ls h Hnd Hb) as (us & h1 & Hps & Hlen1 & Hget1).
    set (D := dedupe_by (λ l, ps (deref h l)) preloads [] ls).
    assert (HD1 : dedupe_by (deref h1) preloads [] (concat [ls]) = D).
    { cbn [concat]. rewrite app_nil_r. apply dedupe_by_ext. intros l Hl.
      by rewrite Hget1, decide_True. }
    assert (HD : NoDup D) by apply dedupe_by_NoDup.
    assert (Hsub : ∀ l, l ∈ D → l ∈ ls) by (intros l; apply dedupe_by_subset).
    assert (HDb : Forall (λ l, (l < length h1)%nat) D).
    { apply Forall_forall. intros l Hl. rewrite Hlen1.
      rewrite Forall_forall in Hb. by apply Hb, Hsub. }
    destruct (foreach_distinct (parseLink prefix) D h1 HD HDb)
      as (us2 & h2 & Hparse & Hlen2 & Hget2).
    destruct (render_links_store useId D h2 HD) as (h3 & Hrender & Hlen3 & Hget3).
    { by rewrite Hlen2. }
    exists D, h3. split; [done|].
    assert (Hrun : Links useId prefix (Some remix) (Some state) None h =
                   Ok ((map (λ l, emitted useId (deref h2 l)) D, D), h3)).
    { assert (Hone : links_of_match (Some (routeModules remix))
                       (default [] prefix) m h = Ok (ls, h1)).
      { unfold links_of_match. rewrite Hmd. unfold call_links. rewrite Hlinks.
        unfold mbind, shared, mret. fold ps. by rewrite Hps. }
      unfold Links, getLinksForMatches. cbn [fmap option_fmap option_map].
      rewrite Hms. unfold mbind at 1 2. rewrite mapM_cons, Hone.
      cbn [mapM]. unfold mret at 1.
      unfold mbind at 1, mlift. rewrite Hpre. unfold dedupe. rewrite HD1.
      unfold mbind at 1. rewrite Hparse. unfold mbind, mret. by rewrite Hrender. }
    rewrite Hrun. split.
    + do 3 f_equal. apply map_ext_in. intros l Hl. apply list_elem_of_In in Hl.
      rewrite Hget2, decide_True by done.
      by rewrite Hget1, decide_True by (by apply Hsub).
    + intros l Hl. rewrite Hget3, Hget2, !decide_True by done.
      by rewrite Hget1, decide_True by (by apply Hsub).
  - intros p href d -> Hp Hh Hpage Hrel Hhref.
    change (default [] (Some p)) with p.
    assert (Hne1 : js "page" ≠ js "href") by (intros H; by vm_compute in H).
    assert (Hne2 : js "rel" ≠ js "href") by (intros H; by vm_compute in H).
    assert (Hd : prefix_stylesheet p d =
                 set (js "href") (VString (p ++ href)) d).
    { unfold prefix_stylesheet. rewrite Hpage, Hrel, Hhref. unfold is_string.
      rewrite bool_decide_eq_true_2 by done. by destruct href. }
    rewrite Hd.
    destruct (rendered_stylesheet useId p (p ++ href)
                (set (js "href") (VString (p ++ href)) d) Hp) as (_ & _ & H).
    + unfold isPageLinkDescriptor in *. by rewrite get_set_ne.
    + by rewrite get_set_ne.
    + by rewrite get_set_eq.
    + done.
Qed.

Lemma Links_shared_descriptors_prefixed_twice_witness :
  ∃ h',
    Links true (Some Examples.cdn)
      (Some {| manifest := Examples.manifest0;
               routeModules := {[ js "root" := {| links := Some (shared [0%nat]) |} ]};
               serverHandoffString := None; abortDelay := None |})
      (Some Examples.state0) None [Examples.stylesheet_a] =
    Ok (([ link [ (js "rel", VString (js "stylesheet"));
                  (js "href", VString (js "https://cdnhttps://cdn/a.css")) ] ],
         [0%nat]), h').
Proof.
  assert (Hnd : NoDup [0%nat]) by (apply NoDup_singleton).
  assert (Hb : Forall (λ l, (l < length [Examples.stylesheet_a])%nat) [0%nat]).
  { constructor; [cbn; lia|constructor]. }
  assert (Hmd : routeModules
                  {| manifest := Examples.manifest0;
                     routeModules :=
                       {[ js "root" := {| links := Some (shared [0%nat]) |} ]};
                     serverHandoffString := None; abortDelay := None |}
                !! route_id {| route_id := js "root" |} =
                Some {| links := Some (shared [0%nat]) |}) by (by vm_compute).
  destruct (Links_shared_descriptors_prefixed_twice true (Some Examples.cdn)
              {| manifest := Examples.manifest0;
                 routeModules :=
                   {[ js "root" := {| links := Some (shared [0%nat]) |} ]};
                 serverHandoffString := None; abortDelay := None |}
              Examples.state0 {| route_id := js "root" |}
              {| links := Some (shared [0%nat]) |} [0%nat]
              [js "/build/root.js"; js "/build/shared.js"]
              [Examples.stylesheet_a] eq_refl Hmd eq_refl Hnd Hb eq_refl)
    as ((kept & h' & Hkept & Hrun & _) & _).
  exists h'. rewrite Hrun, Hkept. by vm_compute.
Defined.

(** X17. In the browser (a router that is not static and has no static
    context) the first render of [Scripts] generates two blank inline
    scripts: no context is assigned and no module is imported. *)
Theorem Scripts_client_scripts_blank env prefix props remix router state r :
  static router = false → staticContext router = None →
  Scripts env prefix props (Some remix) (Some router) (Some state) None = Ok r →
  kept r = [ script props None false (createHtml (js " "));
             script props (Some (js "module")) true (createHtml (js " ")) ].
Proof.
  intros Hst Hctx H. rewrite Scripts_first_render, Hctx in H.
  change (contextScript env remix None []) with
    (Ok (js " " ++ [], @nil Scripts.element)) in H.
  unfold routeModulesScript in H. rewrite Hst in H. cbn [negb] in H.
  render_steps H. done.
Qed.

Lemma Scripts_client_scripts_blank_witness :
  ∃ r,
    Scripts Examples.hydrating_env (Some Examples.cdn) [] (Some Examples.remix0)
      (Some Examples.router_client) (Some Examples.state0) None = Ok r
    ∧ kept r = Examples.kept_client.
Proof.
  destruct (Scripts Examples.hydrating_env (Some Examples.cdn) []
              (Some Examples.remix0) (Some Examples.router_client)
              (Some Examples.state0) None) as [r|] eqn:E; [|by vm_compute in E].
  exists r. split; [done|].
  by rewrite (Scripts_client_scripts_blank Examples.hydrating_env
                (Some Examples.cdn) [] Examples.remix0 Examples.router_client
                Examples.state0 r eq_refl eq_refl E).
Defined.
